(** * CathReadings: a shallow embedding of cathReadings.js

    The first part follows the class [CathReadings]:
    - [Js]         exceptions and the values that reach the cache;
    - [JsString]   the string built-ins the class calls
                   (parseInt, padStart, slice, includes, toLowerCase, trim);
    - [JsDate]     the ECMAScript date algorithms behind [new Date(y, m, d)],
                   [getMonth], [getDate] and [getFullYear];
    - [DateCodec]  [formatDateForUrl] and [parseDateString];
    - [Dom]        elements, selectors and [querySelector];
    - [PageParser] [extractSeason], [extractLiturgicalRank], and the walk over
                   the verse blocks of a parsed document;
    - [FetchRacer] [fetchViaProxies] as a transition system over the callbacks
                   the event loop may run;
    - [Service]    [getReadings] with its two cache tiers, as a state-passing
                   function.
    The second part states and proves the properties.

    Strings are sequences of code units below 256 (the Latin-1 part of a
    JavaScript string). A date object is represented by its time value read
    in local time; what the platform supplies (the network, the HTML parser,
    [localStorage], [JSON]) enters as the fields of [PageParser.Host] and
    [Service.Env]. *)

From Stdlib Require Import ZArith Lia Bool List Ascii String.
From Stdlib Require Import DecimalString.
From stdpp Require Import gmap strings.
Import ListNotations.

Local Open Scope string_scope.
Local Open Scope Z_scope.

Set Warnings "-register-all".

(** ** Values and exceptions *)

Module Js.

(** A thrown exception: the [name] and [message] of an [Error] object. *)
Record JsError : Type := { errName : string; errMessage : string }.

(** [new Error(msg)]. *)
Definition Error (msg : string) : JsError :=
  {| errName := "Error"; errMessage := msg |}.

(** The values that reach the cache: what [JSON.parse] can return, and the
    object [parseReadings] builds. Numbers are restricted to integers. *)
Inductive JsValue : Type :=
| VNull
| VBool (b : bool)
| VNum (n : Z)
| VStr (s : string)
| VArr (items : list JsValue)
| VObj (fields : list (string * JsValue)).

(** The test of [if (v)]. *)
Definition truthy (v : JsValue) : bool :=
  match v with
  | VNull => false
  | VBool b => b
  | VNum n => negb (n =? 0)
  | VStr s => negb (String.eqb s "")
  | VArr _ | VObj _ => true
  end.

End Js.

(** ** String built-ins *)

Module JsString.

(** [\d] of a regular expression without the [u] flag: the ten ASCII digits. *)
Definition isDigit (c : ascii) : bool :=
  match c with
  | "0" | "1" | "2" | "3" | "4" | "5" | "6" | "7" | "8" | "9" => true
  | _ => false
  end%char.

Definition digitValue (c : ascii) : Z := Z.of_nat (nat_of_ascii c) - 48.

(** White space as [trim] and [parseInt] see it, for code units below 256:
    TAB, LF, VT, FF, CR, SPACE and NBSP. *)
Definition isWhiteSpace (c : ascii) : bool :=
  let n := nat_of_ascii c in
  ((9 <=? n)%nat && (n <=? 13)%nat) || (n =? 32)%nat || (n =? 160)%nat.

Fixpoint all (p : ascii -> bool) (s : string) : bool :=
  match s with
  | EmptyString => true
  | String c r => p c && all p r
  end.

(** [s.substring(start, end)] for non-negative integer arguments: both are
    clamped to the length and swapped when out of order. *)
Definition substring (start end_ : nat) (s : string) : string :=
  let len := String.length s in
  let a := Nat.min start len in
  let b := Nat.min end_ len in
  String.substring (Nat.min a b) (Nat.max a b - Nat.min a b) s.

Fixpoint dropWhile (p : ascii -> bool) (s : string) : string :=
  match s with
  | EmptyString => EmptyString
  | String c r => if p c then dropWhile p r else s
  end.

(** Value of the longest prefix of decimal digits, most significant first;
    [None] when the prefix is empty. *)
Fixpoint digitsPrefix (acc : option Z) (s : string) : option Z :=
  match s with
  | EmptyString => acc
  | String c r =>
      if isDigit c
      then digitsPrefix (Some (10 * default 0 acc + digitValue c)) r
      else acc
  end.

(** [parseInt(s, 10)]: leading white space is skipped, one sign is accepted,
    then the longest run of digits is read. [None] stands for [NaN]. *)
Definition parseInt (s : string) : option Z :=
  match dropWhile isWhiteSpace s with
  | String "-" r => Z.opp <$> digitsPrefix None r
  | String "+" r => digitsPrefix None r
  | r => digitsPrefix None r
  end.

(** [String(n)] for an integer [n]. *)
Definition ofInt (n : Z) : string := NilZero.string_of_int (Z.to_int n).

(** [n] characters taken from [pad] repeated as often as needed. *)
Fixpoint cycleTake (n : nat) (pad rest : string) : string :=
  match n with
  | O => EmptyString
  | S n' =>
      match rest with
      | String c r => String c (cycleTake n' pad r)
      | EmptyString =>
          match pad with
          | String c r => String c (cycleTake n' pad r)
          | EmptyString => EmptyString
          end
      end
  end.

(** [s.padStart(targetLength, padString)]. *)
Definition padStart (targetLength : nat) (padString s : string) : string :=
  let len := String.length s in
  if (targetLength <=? len)%nat then s
  else cycleTake (targetLength - len) padString padString ++ s.

(** [s.slice(start)]: a negative [start] counts from the end. *)
Definition slice (start : Z) (s : string) : string :=
  let len := Z.of_nat (String.length s) in
  let from := if start <? 0 then Z.max (len + start) 0 else Z.min start len in
  String.substring (Z.to_nat from) (Z.to_nat (len - from)) s.

(** [s.includes(sub)]: [sub] occurs in [s] at some position. *)
Fixpoint includes (s sub : string) : bool :=
  String.prefix sub s ||
  match s with
  | EmptyString => false
  | String _ r => includes r sub
  end.

(** [toLowerCase] on one code unit below 256: A-Z, and the Latin-1 capitals
    U+00C0..U+00DE except the multiplication sign U+00D7, move up by 32. *)
Definition lowerChar (c : ascii) : ascii :=
  let n := nat_of_ascii c in
  if ((65 <=? n)%nat && (n <=? 90)%nat)
     || ((192 <=? n)%nat && (n <=? 222)%nat && negb (n =? 215)%nat)
  then ascii_of_nat (n + 32) else c.

Fixpoint toLowerCase (s : string) : string :=
  match s with
  | EmptyString => EmptyString
  | String c r => String (lowerChar c) (toLowerCase r)
  end.

Fixpoint rev (acc s : string) : string :=
  match s with
  | EmptyString => acc
  | String c r => rev (String c acc) r
  end.

(** [s.trim()]. *)
Definition trim (s : string) : string :=
  rev "" (dropWhile isWhiteSpace (rev "" (dropWhile isWhiteSpace s))).

(** Truthiness of a string: only the empty string is falsy. *)
Definition truthy (s : string) : bool :=
  match s with EmptyString => false | _ => true end.

End JsString.

(** ** Date algorithms (ECMA-262, "Date Objects") *)

Module JsDate.

Definition msPerDay : Z := 86400000.

Definition Day (t : Z) : Z := t / msPerDay.

Definition DaysInYear (y : Z) : Z :=
  if negb (y mod 4 =? 0) then 365
  else if negb (y mod 100 =? 0) then 366
  else if negb (y mod 400 =? 0) then 365
  else 366.

Definition DayFromYear (y : Z) : Z :=
  365 * (y - 1970) + (y - 1969) / 4 - (y - 1901) / 100 + (y - 1601) / 400.

(** The largest [y] with [DayFromYear y <= d], searched upwards from a year
    that is not after it. *)
Fixpoint yearSearch (fuel : nat) (y d : Z) : Z :=
  match fuel with
  | O => y
  | S f => if DayFromYear (y + 1) <=? d then yearSearch f (y + 1) d else y
  end.

Definition YearFromDay (d : Z) : Z :=
  let lo := 1970 + (if 0 <=? d then d / 366 else d / 365) - 2 in
  yearSearch (Z.to_nat (Z.abs d / 100000 + 6)) lo d.

Definition YearFromTime (t : Z) : Z := YearFromDay (Day t).

Definition InLeapYear (t : Z) : Z :=
  if DaysInYear (YearFromTime t) =? 366 then 1 else 0.

Definition DayWithinYear (t : Z) : Z := Day t - DayFromYear (YearFromTime t).

(** Month number, 0 for January to 11 for December. *)
Definition MonthFromTime (t : Z) : Z :=
  let d := DayWithinYear t in
  let l := InLeapYear t in
  if d <? 31 then 0
  else if d <? 59 + l then 1
  else if d <? 90 + l then 2
  else if d <? 120 + l then 3
  else if d <? 151 + l then 4
  else if d <? 181 + l then 5
  else if d <? 212 + l then 6
  else if d <? 243 + l then 7
  else if d <? 273 + l then 8
  else if d <? 304 + l then 9
  else if d <? 334 + l then 10
  else 11.

(** Day of the month, 1 to 31. *)
Definition DateFromTime (t : Z) : Z :=
  let d := DayWithinYear t in
  let l := InLeapYear t in
  match MonthFromTime t with
  | 0 => d + 1
  | 1 => d - 30
  | 2 => d - 58 - l
  | 3 => d - 89 - l
  | 4 => d - 119 - l
  | 5 => d - 150 - l
  | 6 => d - 180 - l
  | 7 => d - 211 - l
  | 8 => d - 242 - l
  | 9 => d - 272 - l
  | 10 => d - 303 - l
  | _ => d - 333 - l
  end.

(** Days before the first of month [mn] (0..11) in a year of [len] days. *)
Definition monthStart (mn len : Z) : Z :=
  let l := if len =? 366 then 1 else 0 in
  match mn with
  | 0 => 0
  | 1 => 31
  | 2 => 59 + l
  | 3 => 90 + l
  | 4 => 120 + l
  | 5 => 151 + l
  | 6 => 181 + l
  | 7 => 212 + l
  | 8 => 243 + l
  | 9 => 273 + l
  | 10 => 304 + l
  | _ => 334 + l
  end.

(** [MakeDay]: months outside 0..11 carry into the year, and the day of the
    month is added as a plain offset, so it may run past the month's end. *)
Definition MakeDay (year month date : Z) : Z :=
  let ym := year + month / 12 in
  let mn := month mod 12 in
  DayFromYear ym + monthStart mn (DaysInYear ym) + date - 1.

Definition MakeTime (hour min sec ms : Z) : Z :=
  hour * 3600000 + min * 60000 + sec * 1000 + ms.

Definition MakeDate (day time : Z) : Z := day * msPerDay + time.

(** [TimeClip]: a time value beyond 8.64e15 ms becomes [NaN]. *)
Definition TimeClip (t : Z) : option Z :=
  if 8640000000000000 <? Z.abs t then None else Some t.

(** A date object: its time value read in local time, [None] for the
    invalid date whose time value is [NaN]. The offset between local time
    and UTC is not represented; the calendar getters below are the local
    ones, as the class uses them. *)
Definition t := option Z.

(** [new Date(year, month, day)]; a [NaN] argument gives the invalid date,
    a year in 0..99 means 1900 + year. *)
Definition make (year month day : option Z) : t :=
  y ← year; m ← month; d ← day;
  let yr := if (0 <=? y) && (y <=? 99) then 1900 + y else y in
  TimeClip (MakeDate (MakeDay yr m d) (MakeTime 0 0 0 0)).

(** [date.getTime()], with [None] for [NaN]. *)
Definition getTime (d : t) : option Z := d.
Definition getFullYear (d : t) : option Z := YearFromTime <$> d.
Definition getMonth (d : t) : option Z := MonthFromTime <$> d.
Definition getDate (d : t) : option Z := DateFromTime <$> d.

(** [isNaN(x)]. *)
Definition isNaN (x : option Z) : bool :=
  match x with None => true | Some _ => false end.

(** [String(x)] for a number that is an integer or [NaN]. *)
Definition numberToString (x : option Z) : string :=
  match x with None => "NaN" | Some n => JsString.ofInt n end.

End JsDate.

(** ** DateCodec *)

Module DateCodec.

Inductive error : Type :=
| FormatError        (* Error('Date must be in MMDDYY format') *)
| InvalidDateError.  (* Error('Invalid date values') *)

Definition message (e : error) : string :=
  match e with
  | FormatError => "Date must be in MMDDYY format"
  | InvalidDateError => "Invalid date values"
  end.

(** [/^\d{6}$/.test(dateStr)]. *)
Definition sixDigits (dateStr : string) : bool :=
  (String.length dateStr =? 6)%nat && JsString.all JsString.isDigit dateStr.

Definition formatDateForUrl (date : JsDate.t) : string :=
  let month :=
    JsString.padStart 2 "0"
      (JsDate.numberToString (Z.succ <$> JsDate.getMonth date)) in
  let day :=
    JsString.padStart 2 "0" (JsDate.numberToString (JsDate.getDate date)) in
  let year :=
    JsString.slice (-2) (JsDate.numberToString (JsDate.getFullYear date)) in
  month ++ day ++ year.

Definition parseDateString (dateStr : string) : error + JsDate.t :=
  if negb (sixDigits dateStr) then inl FormatError
  else
    let month := JsString.parseInt (JsString.substring 0 2 dateStr) in
    let day := JsString.parseInt (JsString.substring 2 4 dateStr) in
    let year := JsString.parseInt ("20" ++ JsString.substring 4 6 dateStr) in
    let date := JsDate.make year (Z.pred <$> month) day in
    if JsDate.isNaN (JsDate.getTime date) then inl InvalidDateError
    else inr date.

End DateCodec.

(** ** PageParser *)

Module Dom.

(** A parsed document: text nodes and elements with their attributes. *)
Inductive Node : Type :=
| Text (data : string)
| Element (tag : string) (attrs : list (string * string)) (children : list Node).

(** What a selector looks at in one element. *)
Record Info : Type := { tagName : string; attributes : list (string * string) }.

(** An element together with the chain of its ancestors, nearest first: the
    value a [querySelector] call hands back. *)
Record Elem : Type :=
  { self : Info; ancestors : list Info; childNodes : list Node }.

(** A compound selector: an optional type selector and class selectors. *)
Record Compound : Type := { selTag : option string; selClasses : list string }.

(** A complex selector built with the descendant combinator, leftmost
    compound first. *)
Definition Selector : Type := list Compound.

Definition getAttribute (name : string) (e : Info) : option string :=
  snd <$> List.find (fun kv => String.eqb (fst kv) name) (attributes e).

(** ASCII white space, which separates the class names of an attribute: TAB,
    LF, FF, CR and SPACE. *)
Definition isAsciiWhiteSpace (c : ascii) : bool :=
  let n := nat_of_ascii c in
  (n =? 9)%nat || (n =? 10)%nat || (n =? 12)%nat || (n =? 13)%nat || (n =? 32)%nat.

(** The tokens of a class attribute; [cur] holds the current token reversed. *)
Fixpoint tokens (cur : string) (s : string) : list string :=
  match s with
  | EmptyString => if JsString.truthy cur then [JsString.rev "" cur] else []
  | String c r =>
      if isAsciiWhiteSpace c
      then (if JsString.truthy cur then [JsString.rev "" cur] else []) ++ tokens "" r
      else tokens (String c cur) r
  end.

Definition classList (e : Info) : list string :=
  match getAttribute "class" e with
  | Some v => tokens "" v
  | None => []
  end.

Definition matchesCompound (e : Info) (c : Compound) : bool :=
  match selTag c with
  | Some t => String.eqb (JsString.toLowerCase (tagName e)) t
  | None => true
  end
  && forallb (fun k => existsb (String.eqb k) (classList e)) (selClasses c).

(** The compounds left of the subject, nearest first, must be found among
    the ancestors in that order. *)
Fixpoint matchesAncestors (ancs : list Info) (cs : list Compound) : bool :=
  match cs with
  | [] => true
  | c :: cs' =>
      match ancs with
      | [] => false
      | a :: ancs' =>
          if matchesCompound a c then matchesAncestors ancs' cs'
          else matchesAncestors ancs' cs
      end
  end.

Definition matches (sel : Selector) (e : Elem) : bool :=
  match List.rev sel with
  | [] => false
  | c :: cs => matchesCompound (self e) c && matchesAncestors (ancestors e) cs
  end.

(** The element [n] (if it is one) and the elements below it, in document
    order. *)
Fixpoint inclusiveDescendants (ancs : list Info) (n : Node) : list Elem :=
  match n with
  | Text _ => []
  | Element tag attrs kids =>
      let me := {| tagName := tag; attributes := attrs |} in
      {| self := me; ancestors := ancs; childNodes := kids |}
        :: flat_map (inclusiveDescendants (me :: ancs)) kids
  end.

Definition descendants (e : Elem) : list Elem :=
  flat_map (inclusiveDescendants (self e :: ancestors e)) (childNodes e).

Definition querySelectorAll (sel : Selector) (e : Elem) : list Elem :=
  List.filter (matches sel) (descendants e).

Definition querySelector (sel : Selector) (e : Elem) : option Elem :=
  head (querySelectorAll sel e).

Fixpoint nodeText (n : Node) : string :=
  match n with
  | Text s => s
  | Element _ _ kids => String.concat "" (List.map nodeText kids)
  end.

Definition textContent (e : Elem) : string :=
  String.concat "" (List.map nodeText (childNodes e)).

Definition byClass (cs : list string) : Compound :=
  {| selTag := None; selClasses := cs |}.
Definition byTag (t : string) : Compound :=
  {| selTag := Some t; selClasses := [] |}.

(** The document node: queries run over the whole tree under [root]. *)
Definition document (root : Node) : Elem :=
  {| self := {| tagName := "#document"; attributes := [] |};
     ancestors := []; childNodes := [root] |}.

End Dom.

Module PageParser.

Import Dom.

(** What the browser supplies to the parser. *)
Record Host : Type :=
  { (** [new DOMParser().parseFromString(html, 'text/html')]; [None] where
        no [DOMParser] is defined. *)
    DOMParser : option (string -> Node);
    (** [element.innerHTML]: the serialization of the children. *)
    innerHTML : Elem -> string;
    (** The [href] property of an anchor: its attribute resolved against
        the document's base URL. *)
    resolveHref : string -> string;
    (** [date.toISOString()]; throws a RangeError on the invalid date. *)
    toISOString : JsDate.t -> option string;
    (** [date.toLocaleDateString('en-US', {...})]. *)
    toLocaleDateString : JsDate.t -> string }.

Record Reading : Type :=
  { name : string; reference : string; referenceUrl : string; text : string }.

Record DailyReadings : Type :=
  { date : string;
    displayDate : string;
    title : string;
    season : string;
    rank : string;
    lectionary : string;
    readings : list Reading }.

Definition extractTitle (doc : Elem) : string :=
  match querySelector [byClass ["wr-block"; "b-lectionary"]; byTag "h2"] doc with
  | Some titleElement => JsString.trim (textContent titleElement)
  | None => ""
  end.

Definition extractSeason (title : string) : string :=
  if negb (JsString.truthy title) then "Unknown"
  else if JsString.includes title "Advent" then "Advent"
  else if JsString.includes title "Christmas" then "Christmas"
  else if JsString.includes title "Lent" then "Lent"
  else if JsString.includes title "Easter" then "Easter"
  else if JsString.includes title "Pentecost" then "Pentecost"
  else if JsString.includes title "Ordinary Time" then "Ordinary Time"
  else "Ordinary Time".

(** The [doc] argument of the method is never read. *)
Definition extractLiturgicalRank (title : string) : string :=
  if negb (JsString.truthy title) then "Ferial"
  else
    let titleLower := JsString.toLowerCase title in
    if JsString.includes titleLower "solemnity"
       || JsString.includes titleLower "christmas"
       || JsString.includes titleLower "epiphany"
       || JsString.includes titleLower "easter"
       || JsString.includes titleLower "pentecost"
       || JsString.includes titleLower "ascension"
       || JsString.includes titleLower "assumption"
       || JsString.includes titleLower "all saints"
       || JsString.includes titleLower "immaculate conception"
    then "Solemnity"
    else if JsString.includes titleLower "feast" then "Feast"
    else if JsString.includes titleLower "memorial" then "Memorial"
    else if JsString.includes titleLower "st. "
            || JsString.includes titleLower "saint "
    then "Memorial"
    else "Ferial".

(** [/Lectionary:\s*(\d+)/] tried at the start of [s]: the captured digits. *)
Definition lectionaryHere (s : string) : option string :=
  if String.prefix "Lectionary:" s then
    let rest := JsString.dropWhile JsString.isWhiteSpace
                  (String.substring 11 (String.length s - 11) s) in
    let after := JsString.dropWhile JsString.isDigit rest in
    let digits :=
      String.substring 0 (String.length rest - String.length after) rest in
    if JsString.truthy digits then Some digits else None
  else None.

(** The leftmost match of the pattern in [s]. *)
Fixpoint lectionaryMatch (s : string) : option string :=
  match lectionaryHere s with
  | Some d => Some d
  | None =>
      match s with
      | EmptyString => None
      | String _ r => lectionaryMatch r
      end
  end.

Definition extractLectionary (doc : Elem) : string :=
  match querySelector [byClass ["wr-block"; "b-lectionary"]; byTag "p"] doc with
  | Some lectElement => default "" (lectionaryMatch (textContent lectElement))
  | None => ""
  end.

(** [/<br\s*\/?>/i] tried at the start of [s]: what follows the match. *)
Definition brHere (s : string) : option string :=
  match s with
  | String "<" (String b (String r rest)) =>
      if Ascii.eqb (JsString.lowerChar b) "b" && Ascii.eqb (JsString.lowerChar r) "r"
      then
        match JsString.dropWhile JsString.isWhiteSpace rest with
        | String "/" (String ">" k) => Some k
        | String ">" k => Some k
        | _ => None
        end
      else None
  | _ => None
  end.

(** [s.replace(/<br\s*\/?>/gi, '\n')]. *)
Fixpoint replaceBr (fuel : nat) (s : string) : string :=
  match fuel with
  | O => s
  | S f =>
      match brHere s with
      | Some k => String "010" (replaceBr f k)
      | None =>
          match s with
          | EmptyString => EmptyString
          | String c r => String c (replaceBr f r)
          end
      end
  end.

(** [s.replace(/<[^>]*>/g, '')]: [inTag] holds the characters read since an
    unclosed [<]; they are kept when no [>] follows. *)
Fixpoint stripTags (inTag : option string) (s : string) : string :=
  match s with
  | EmptyString =>
      match inTag with
      | Some seen => JsString.rev "" seen
      | None => EmptyString
      end
  | String c r =>
      match inTag with
      | Some seen =>
          if Ascii.eqb c ">" then stripTags None r
          else stripTags (Some (String c seen)) r
      | None =>
          if Ascii.eqb c "<" then stripTags (Some (String c "")) r
          else String c (stripTags None r)
      end
  end.

(** The replacements on [element.innerHTML] at the head of the method build
    a string that is never used; the result comes from the paragraphs. *)
Definition extractTextContent (h : Host) (element : Elem) : string :=
  let paragraphs := querySelectorAll [byTag "p"] element in
  let texts :=
    List.filter JsString.truthy
      (List.map
         (fun p =>
            let html := innerHTML h p in
            JsString.trim
              (stripTags None (replaceBr (S (String.length html)) html)))
         paragraphs) in
  String.concat (String "010" (String "010" "")) texts.

Definition nameSelector : Selector := [byClass ["content-header"]; byClass ["name"]].
Definition addressSelector : Selector :=
  [byClass ["content-header"]; byClass ["address"]].
Definition bodySelector : Selector := [byClass ["content-body"]].

(** [addressElement?.querySelector('a')]. *)
Definition referenceLink (block : Elem) : option Elem :=
  querySelector addressSelector block ≫= querySelector [byTag "a"].

(** The [href] property of an anchor; the empty string without the
    attribute. *)
Definition href (h : Host) (a : Elem) : string :=
  match getAttribute "href" (self a) with
  | Some v => resolveHref h v
  | None => ""
  end.

(** [None] is the [null] the method returns for a block it rejects. *)
Definition parseReadingBlock (h : Host) (block : Elem) : option Reading :=
  let nameElement := querySelector nameSelector block in
  let contentElement := querySelector bodySelector block in
  match nameElement, contentElement with
  | Some nameEl, Some contentEl =>
      let name := JsString.trim (textContent nameEl) in
      let reference :=
        default "" ((fun a => JsString.trim (textContent a)) <$> referenceLink block) in
      let referenceUrl := default "" (href h <$> referenceLink block) in
      let text := extractTextContent h contentEl in
      Some {| name := name; reference := reference;
              referenceUrl := referenceUrl; text := text |}
  | _, _ => None
  end.

(** The blocks the page marks as verse blocks, in document order. *)
Definition verseBlocks (doc : Elem) : list Elem :=
  querySelectorAll [byClass ["wr-block"; "b-verse"]] doc.

(** The [forEach] over the verse blocks: a block is pushed when
    [parseReadingBlock] returns an object. *)
Definition collectReadings (h : Host) (blocks : list Elem) : list Reading :=
  omap (parseReadingBlock h) blocks.

(** The part of [parseReadings] that follows the call of the HTML parser. *)
Definition parseDocument (h : Host) (doc : Elem) (isoDate : string) (d : JsDate.t)
  : DailyReadings :=
  let title := extractTitle doc in
  {| date := isoDate;
     displayDate := toLocaleDateString h d;
     title := title;
     season := extractSeason title;
     rank := extractLiturgicalRank title;
     lectionary := extractLectionary doc;
     readings := collectReadings h (verseBlocks doc) |}.

End PageParser.

(** ** FetchRacer *)

Module FetchRacer.

Import Js.

(** The four public proxies of the constructor; [enc] is
    [encodeURIComponent]. *)
Definition proxyCandidates (enc : string -> string) : list (string -> string) :=
  [ (fun u => "https://cors.isomorphic-git.org/" ++ u);
    (fun u => "https://api.allorigins.win/raw?url=" ++ enc u);
    (fun u => "https://api.codetabs.com/v1/proxy?quest=" ++ enc u);
    (fun u => "https://thingproxy.freeboard.io/fetch/" ++ u) ].

Definition buildProxyUrls (enc : string -> string) (url : string) : list string :=
  List.map (fun fn => fn url) (proxyCandidates enc).

(** Where the callback of one route stands. *)
Inductive Phase : Type :=
| Waiting     (* its staggered [setTimeout] has not fired *)
| Fetching    (* suspended at [await fetch(purl, ...)] *)
| Reading     (* suspended at [await res.text()] *)
| Finished.   (* returned, or left through the [catch] block *)

Inductive Timer : Type := Armed | Fired | Cleared.

(** How the promise returned by [fetchViaProxies] was settled. *)
Inductive Outcome : Type :=
| Resolved (text : string)
| Rejected (e : JsError).

Definition TimeoutError : JsError :=
  Error "Network request timed out across proxies".
Definition AllRoutesFailedError : JsError :=
  Error "All CORS proxies failed or were blocked".

(** The variables the callbacks share. *)
Record Race : Type :=
  { proxyUrls : list string;
    settled : bool;
    failures : nat;
    globalTimer : Timer;
    aborted : list bool;        (* [controllers[i].signal.aborted] *)
    routes : list Phase;
    promise : option Outcome }. (* [None] while pending *)

(** The state when [fetchViaProxies] returns its promise: every timer is
    scheduled and no callback has run. *)
Definition start (urls : list string) : Race :=
  {| proxyUrls := urls;
     settled := false;
     failures := 0;
     globalTimer := Armed;
     aborted := replicate (length urls) false;
     routes := replicate (length urls) Waiting;
     promise := None |}.

Definition fetchViaProxies (enc : string -> string) (url : string) : Race :=
  start (buildProxyUrls enc url).

(** The callbacks the event loop can run. *)
Inductive Event : Type :=
| Deadline                          (* the global timer fires *)
| Start (i : nat)                   (* the staggered timer of route [i] fires *)
| Response (i : nat) (ok : bool)    (* [fetch] fulfils, with [res.ok] *)
| FetchRejected (i : nat)           (* [fetch] rejects: transport error or abort *)
| Body (i : nat) (text : string)    (* [res.text()] fulfils *)
| BodyRejected (i : nat).           (* [res.text()] rejects *)

(** [resolve] and [reject] act on a pending promise only. *)
Definition settle (o : Outcome) (p : option Outcome) : option Outcome :=
  match p with
  | None => Some o
  | Some _ => p
  end.

Definition clearTimeout (t : Timer) : Timer :=
  match t with
  | Armed => Cleared
  | _ => t
  end.

Definition setRoute (i : nat) (p : Phase) (s : Race) : Race :=
  {| proxyUrls := proxyUrls s; settled := settled s; failures := failures s;
     globalTimer := globalTimer s; aborted := aborted s;
     routes := <[i := p]> (routes s); promise := promise s |}.

(** The [catch] block of route [i]. *)
Definition onFailure (i : nat) (s : Race) : Race :=
  let f := S (failures s) in
  if (f =? length (proxyUrls s))%nat && negb (settled s)
  then {| proxyUrls := proxyUrls s; settled := settled s; failures := f;
          globalTimer := clearTimeout (globalTimer s); aborted := aborted s;
          routes := <[i := Finished]> (routes s);
          promise := settle (Rejected AllRoutesFailedError) (promise s) |}
  else {| proxyUrls := proxyUrls s; settled := settled s; failures := f;
          globalTimer := globalTimer s; aborted := aborted s;
          routes := <[i := Finished]> (routes s); promise := promise s |}.

(** The code after [await res.text()] in route [i]. *)
Definition onBody (i : nat) (text : string) (s : Race) : Race :=
  if settled s then setRoute i Finished s
  else {| proxyUrls := proxyUrls s; settled := true; failures := failures s;
          globalTimer := clearTimeout (globalTimer s);
          aborted := imap (fun j a => if (j =? i)%nat then a else true) (aborted s);
          routes := <[i := Finished]> (routes s);
          promise := settle (Resolved text) (promise s) |}.

(** The callback of the global timer. *)
Definition onDeadline (s : Race) : Race :=
  if settled s
  then {| proxyUrls := proxyUrls s; settled := settled s; failures := failures s;
          globalTimer := Fired; aborted := aborted s; routes := routes s;
          promise := promise s |}
  else {| proxyUrls := proxyUrls s; settled := settled s; failures := failures s;
          globalTimer := Fired; aborted := (fun _ => true) <$> aborted s;
          routes := routes s;
          promise := settle (Rejected TimeoutError) (promise s) |}.

Definition isAborted (i : nat) (s : Race) : bool := default true (aborted s !! i).

(** One callback. [None] when the event loop cannot run it in state [s]:
    a timer fires once unless cleared, a continuation runs only where its
    route is suspended, and an aborted request does not fulfil. *)
Definition step (s : Race) (e : Event) : option Race :=
  match e with
  | Deadline =>
      match globalTimer s with
      | Armed => Some (onDeadline s)
      | _ => None
      end
  | Start i =>
      match routes s !! i with
      | Some Waiting =>
          Some (if settled s then setRoute i Finished s else setRoute i Fetching s)
      | _ => None
      end
  | Response i ok =>
      match routes s !! i with
      | Some Fetching =>
          if isAborted i s then None
          else Some (if ok then setRoute i Reading s else onFailure i s)
      | _ => None
      end
  | FetchRejected i =>
      match routes s !! i with
      | Some Fetching => Some (onFailure i s)
      | _ => None
      end
  | Body i text =>
      match routes s !! i with
      | Some Reading => if isAborted i s then None else Some (onBody i text s)
      | _ => None
      end
  | BodyRejected i =>
      match routes s !! i with
      | Some Reading => Some (onFailure i s)
      | _ => None
      end
  end.

(** A sequence of callbacks, run in order. *)
Fixpoint run (s : Race) (es : list Event) : option Race :=
  match es with
  | [] => Some s
  | e :: es' =>
      match step s e with
      | Some s' => run s' es'
      | None => None
      end
  end.

Definition isBody (e : Event) : bool :=
  match e with Body _ _ => true | _ => false end.
Definition isDeadline (e : Event) : bool :=
  match e with Deadline => true | _ => false end.

End FetchRacer.

(** ** ReadingsService: [getReadings] and the two cache tiers *)

Module Service.

Import Js.

(** What [window.localStorage] evaluates to. *)
Inductive StorageAccess : Type :=
| Missing        (* undefined or null *)
| AccessThrows   (* the getter throws a SecurityError *)
| Present.

(** The host of one call: the browser or Node.js process around it, and
    what the network answers. *)
Record Env : Type :=
  { host : PageParser.Host;
    hasWindow : bool;               (* [typeof window !== 'undefined'] *)
    localStorage : StorageAccess;
    (** Whether [setItem(key, value)] is accepted by a store holding
        [items]; it throws otherwise (quota exceeded, storage disabled). *)
    setItemOk : gmap string string -> string -> string -> bool;
    (** Whether [getItem(key)] returns; it throws otherwise. *)
    getItemOk : string -> bool;
    (** [JSON.parse]; [None] when it throws a SyntaxError. *)
    JSON_parse : string -> option JsValue;
    (** [JSON.stringify]; [None] when it throws. *)
    JSON_stringify : JsValue -> option string;
    (** [this.fetchUrl(url)]: the body, or the exception of a transport
        error or of a status outside 2xx. *)
    fetchUrl : string -> JsError + string;
    (** How the promise of [this.fetchViaProxies(url, timeout)] settles. *)
    fetchViaProxies : string -> Z -> FetchRacer.Outcome }.

(** The two tiers: the [Map] of the instance and the items of
    [localStorage]. *)
Record State : Type :=
  { cache : gmap string JsValue; storage : gmap string string }.

Inductive Arg : Type :=
| ArgString (s : string)
| ArgDate (d : JsDate.t)
| ArgOther.

Definition baseUrl : string := "https://bible.usccb.org/bible/readings".
Definition timeout : Z := 6000.

Definition readingToJs (r : PageParser.Reading) : JsValue :=
  VObj [ ("name", VStr (PageParser.name r));
         ("reference", VStr (PageParser.reference r));
         ("referenceUrl", VStr (PageParser.referenceUrl r));
         ("text", VStr (PageParser.text r)) ].

(** The object literal of [parseReadings]. *)
Definition toJs (d : PageParser.DailyReadings) : JsValue :=
  VObj [ ("date", VStr (PageParser.date d));
         ("displayDate", VStr (PageParser.displayDate d));
         ("title", VStr (PageParser.title d));
         ("season", VStr (PageParser.season d));
         ("rank", VStr (PageParser.rank d));
         ("lectionary", VStr (PageParser.lectionary d));
         ("readings", VArr (List.map readingToJs (PageParser.readings d))) ].

(** [iso.split('T')[0]]. *)
Fixpoint beforeT (iso : string) : string :=
  match iso with
  | EmptyString => EmptyString
  | String c r => if Ascii.eqb c "T" then EmptyString else String c (beforeT r)
  end.

(** [parseReadings(html, date)] with the exceptions it can raise: a
    ReferenceError where [DOMParser] is not defined, a RangeError from
    [toISOString] on the invalid date. *)
Definition parseReadings (env : Env) (html : string) (date : JsDate.t)
  : JsError + PageParser.DailyReadings :=
  match PageParser.DOMParser (host env) with
  | None =>
      inl {| errName := "ReferenceError"; errMessage := "DOMParser is not defined" |}
  | Some parseFromString =>
      let doc := Dom.document (parseFromString html) in
      match PageParser.toISOString (host env) date with
      | None => inl {| errName := "RangeError"; errMessage := "Invalid time value" |}
      | Some iso => inr (PageParser.parseDocument (host env) doc (beforeT iso) date)
      end
  end.

Definition probeKey : string := "__cr_test__".

(** [storageAvailable()]: the probe writes and removes [__cr_test__]. *)
Definition storageAvailable (env : Env) (items : gmap string string)
  : bool * gmap string string :=
  if negb (hasWindow env) then (false, items)
  else
    match localStorage env with
    | Missing | AccessThrows => (false, items)
    | Present =>
        if setItemOk env items probeKey "1"
        then (true, delete probeKey (<[probeKey := "1"]> items))
        else (false, items)
    end.

Definition storageKey (key : string) : string := "CathReadings:" ++ key.

(** [readFromPersistentCache(key)]; [VNull] is the [null] it returns. *)
Definition readFromPersistentCache (env : Env) (items : gmap string string)
  (key : string) : JsValue * gmap string string :=
  let '(ok, items1) := storageAvailable env items in
  if negb ok then (VNull, items1)
  else if negb (getItemOk env (storageKey key)) then (VNull, items1)
  else
    match items1 !! storageKey key with
    | Some raw =>
        if JsString.truthy raw
        then (default VNull (JSON_parse env raw), items1)
        else (VNull, items1)
    | None => (VNull, items1)
    end.

(** [writeToPersistentCache(key, value)]: nothing is thrown. *)
Definition writeToPersistentCache (env : Env) (items : gmap string string)
  (key : string) (value : JsValue) : gmap string string :=
  let '(ok, items1) := storageAvailable env items in
  if negb ok then items1
  else
    match JSON_stringify env value with
    | Some json =>
        if setItemOk env items1 (storageKey key) json
        then <[storageKey key := json]> items1
        else items1
    | None => items1
    end.

(** The message of the consolidated error after the proxies failed. *)
Definition consolidated (proxyError : JsError) : JsError :=
  Error (if String.eqb (errName proxyError) "AbortError"
         then "Network request timed out (CORS proxies may be slow or unavailable)"
         else "Unable to fetch readings (CORS or network error)").

(** The body of the inner [try]: race the proxies, parse, fill both tiers. *)
Definition viaProxies (env : Env) (c : gmap string JsValue)
  (items : gmap string string) (url dateStr : string) (date : JsDate.t)
  : (JsError + JsValue) * State :=
  match fetchViaProxies env url timeout with
  | FetchRacer.Resolved html =>
      match parseReadings env html date with
      | inr r =>
          let result := toJs r in
          (inr result,
           {| cache := <[dateStr := result]> c;
              storage := writeToPersistentCache env items dateStr result |})
      | inl proxyError =>
          (inl (consolidated proxyError), {| cache := c; storage := items |})
      end
  | FetchRacer.Rejected proxyError =>
      (inl (consolidated proxyError), {| cache := c; storage := items |})
  end.

(** The code of [getReadings] from [const url = ...] on: what a call does
    once both tiers have missed. *)
Definition fetchAndStore (env : Env) (c : gmap string JsValue)
  (items : gmap string string) (dateStr : string) (date : JsDate.t)
  : (JsError + JsValue) * State :=
  let url := baseUrl ++ "/" ++ dateStr ++ ".cfm" in
  let direct :=
    match fetchUrl env url with
    | inr html => parseReadings env html date
    | inl e => inl e
    end in
  match direct with
  | inr r =>
      let result := toJs r in
      (inr result, {| cache := <[dateStr := result]> c; storage := items |})
  | inl error =>
      if hasWindow env then viaProxies env c items url dateStr date
      else (inl error, {| cache := c; storage := items |})
  end.

(** The cache lookups of [getReadings], for a key [dateStr]. *)
Definition lookupOrFetch (env : Env) (st : State) (dateStr : string)
  (date : JsDate.t) : (JsError + JsValue) * State :=
  match cache st !! dateStr with
  | Some v => (inr v, st)
  | None =>
      let '(persisted, items) := readFromPersistentCache env (storage st) dateStr in
      if truthy persisted
      then (inr persisted,
            {| cache := <[dateStr := persisted]> (cache st); storage := items |})
      else fetchAndStore env (cache st) items dateStr date
  end.

Definition dateError (e : DateCodec.error) : JsError :=
  Error (DateCodec.message e).

(** [getReadings(date)]: the value the promise fulfils with or the
    exception it rejects with, and the state the call leaves. *)
Definition getReadings (env : Env) (st : State) (date : Arg)
  : (JsError + JsValue) * State :=
  match date with
  | ArgString dateStr =>
      match DateCodec.parseDateString dateStr with
      | inl e => (inl (dateError e), st)
      | inr d => lookupOrFetch env st dateStr d
      end
  | ArgDate d => lookupOrFetch env st (DateCodec.formatDateForUrl d) d
  | ArgOther =>
      (inl (Error "Date must be a Date object or MMDDYY string"), st)
  end.

End Service.

(** ** The specification's own notions

    Definitions that follow the wording of the specification rather than the
    code; the theorems compare them with the functions above. *)

Module Spec.

(** "Substring match", case-sensitive: [sub] occurs somewhere in [s]. *)
Definition Occurs (sub s : string) : Prop := exists a b, s = a ++ sub ++ b.

(** The ordered list of season keywords. *)
Definition seasonKeywords : list string :=
  ["Advent"; "Christmas"; "Lent"; "Easter"; "Pentecost"; "Ordinary Time"].

(** Two strings of the same length whose characters agree up to case. *)
Fixpoint sameIgnoringCase (s1 s2 : string) : bool :=
  match s1, s2 with
  | EmptyString, EmptyString => true
  | String a r1, String b r2 =>
      Ascii.eqb (JsString.lowerChar a) (JsString.lowerChar b) && sameIgnoringCase r1 r2
  | _, _ => false
  end.

(** "Case-insensitive substring test": some stretch of [title] is [kw] up to
    case. *)
Definition OccursIgnoringCase (kw title : string) : Prop :=
  exists a m b, title = a ++ m ++ b /\ sameIgnoringCase m kw = true.

(** The priority tiers of the rank heuristic: keywords and the rank they
    yield. *)
Definition rankTiers : list (list string * string) :=
  [ (["solemnity"; "christmas"; "epiphany"; "easter"; "pentecost"; "ascension";
      "assumption"; "all saints"; "immaculate conception"], "Solemnity");
    (["feast"], "Feast");
    (["memorial"], "Memorial");
    (["st. "; "saint "], "Memorial") ].

Definition tierMatches (title : string) (tier : list string * string) : Prop :=
  exists kw, In kw (fst tier) /\ OccursIgnoringCase kw title.

(** The enumerated ranks. *)
Definition rankNames : list string := ["Solemnity"; "Feast"; "Memorial"; "Ferial"].

Definition daysInMonth (year month : Z) : Z :=
  match month with
  | 1 | 3 | 5 | 7 | 8 | 10 | 12 => 31
  | 4 | 6 | 9 | 11 => 30
  | 2 => if JsDate.DaysInYear year =? 366 then 29 else 28
  | _ => 0
  end.

(** A valid key: six digits MMDDYY that name a day of the calendar, the month
    in 1..12 and the day within that month of the year 2000 + YY. *)
Definition validKey (key : string) : bool :=
  DateCodec.sixDigits key &&
  match JsString.parseInt (JsString.substring 0 2 key),
        JsString.parseInt (JsString.substring 2 4 key),
        JsString.parseInt (JsString.substring 4 6 key) with
  | Some mm, Some dd, Some yy =>
      (1 <=? mm) && (mm <=? 12) && (1 <=? dd) && (dd <=? daysInMonth (2000 + yy) mm)
  | _, _, _ => false
  end.

(** The durable entry for [key] cannot be used: the storage cannot be
    reached, reading it throws, or what it holds is not JSON. *)
Inductive Unreadable (env : Service.Env) (items : gmap string string) (key : string)
  : Prop :=
| StorageUnavailable :
    fst (Service.storageAvailable env items) = false -> Unreadable env items key
| GetItemThrows :
    Service.getItemOk env (Service.storageKey key) = false -> Unreadable env items key
| NotJson (raw : string) :
    items !! Service.storageKey key = Some raw ->
    Service.JSON_parse env raw = None ->
    Unreadable env items key.

End Spec.

(** ** Invariants of the race and other notions used in the proofs *)

Module RaceInvariants.

Import FetchRacer.

(** Routes whose callback has not returned yet. *)
Fixpoint live (rs : list Phase) : nat :=
  match rs with
  | [] => O
  | Finished :: r => live r
  | _ :: r => S (live r)
  end.

(** What every state reachable from [start] satisfies: the deadline is armed
    only while nothing is decided, and once the race is decided every request
    that is still out has been aborted. *)
Record Inv (s : Race) : Prop :=
  { inv_routes : length (routes s) = length (proxyUrls s);
    inv_aborted : length (aborted s) = length (proxyUrls s);
    inv_armed : globalTimer s = Armed -> settled s = false /\ promise s = None;
    inv_settled :
      forall i p, settled s = true -> routes s !! i = Some p ->
                  p = Fetching \/ p = Reading -> aborted s !! i = Some true;
    inv_promise :
      forall i p, promise s <> None -> settled s = false ->
                  routes s !! i = Some p -> p <> Finished ->
                  aborted s !! i = Some true;
    inv_count : (failures s + live (routes s) <= length (proxyUrls s))%nat }.

(** While no request has fulfilled and the deadline has not passed, the
    promise is pending below [n] failures and rejected from the [n]-th on. *)
Definition OnlyFailures (s : Race) : Prop :=
  settled s = false /\
  ((failures s < length (proxyUrls s))%nat -> promise s = None) /\
  ((length (proxyUrls s) <= failures s)%nat ->
   promise s = Some (Rejected AllRoutesFailedError)).

End RaceInvariants.

Module Tools.

Definition digitChars : list ascii :=
  ["0"; "1"; "2"; "3"; "4"; "5"; "6"; "7"; "8"; "9"]%char.

(** [s] is the two-digit decimal numeral of [n]. *)
Definition twoDigitsOf (s : string) (n : Z) : bool :=
  match s with
  | String c1 (String c2 EmptyString) =>
      JsString.isDigit c1 && JsString.isDigit c2
      && (10 * JsString.digitValue c1 + JsString.digitValue c2 =? n)
  | _ => false
  end.

(** Some keyword of the tier occurs in the lower-cased title. *)
Definition tierb (title : string) (tier : list string * string) : bool :=
  existsb (JsString.includes (JsString.toLowerCase title)) (fst tier).

End Tools.

(** ** Example pages and hosts *)

Module Demo.

Import Dom.

(** A page with three verse blocks: a complete one, one with a name and no
    body, and one with a name and a body whose address holds no link. *)
Definition page : Node :=
  Element "html" []
    [ Element "body" []
        [ Element "div" [("class", "wr-block b-lectionary")]
            [ Element "h2" [] [Text " Monday of the Third Week of Advent "];
              Element "p" [] [Text "Lectionary: 187"] ];
          Element "div" [("class", "wr-block b-verse")]
            [ Element "div" [("class", "content-header")]
                [ Element "h3" [("class", "name")] [Text "Reading 1"];
                  Element "div" [("class", "address")]
                    [ Element "a" [("href", "https://bible.usccb.org/bible/numbers/24?2")]
                        [Text "Numbers 24:2-7, 15-17a"] ] ];
              Element "div" [("class", "content-body")]
                [ Element "p" []
                    [ Text "When Balaam raised his eyes"; Element "br" [] [];
                      Text "the spirit of God came upon him" ] ] ];
          Element "div" [("class", "wr-block b-verse")]
            [ Element "div" [("class", "content-header")]
                [ Element "h3" [("class", "name")] [Text "Alleluia"] ] ];
          Element "div" [("class", "wr-block b-verse")]
            [ Element "div" [("class", "content-header")]
                [ Element "h3" [("class", "name")] [Text "Gospel"];
                  Element "div" [("class", "address")] [] ];
              Element "div" [("class", "content-body")]
                [ Element "p" [] [Text "When Jesus had come into the temple area"] ] ] ] ].

(** A serializer for the pages above: no attributes, no escaping. *)
Fixpoint outerHTML (n : Node) : string :=
  match n with
  | Text s => s
  | Element tag _ kids =>
      "<" ++ tag ++ ">" ++ String.concat "" (List.map outerHTML kids)
      ++ "</" ++ tag ++ ">"
  end.

Definition host : PageParser.Host :=
  {| PageParser.DOMParser := Some (fun _ => page);
     PageParser.innerHTML := fun e => String.concat "" (List.map outerHTML (childNodes e));
     PageParser.resolveHref := fun v => v;
     PageParser.toISOString := fun _ => Some "2025-12-15T06:00:00.000Z";
     PageParser.toLocaleDateString := fun _ => "December 15, 2025" |}.

Definition blocks : list Elem := PageParser.verseBlocks (document page).

Definition emptyElem : Elem :=
  {| self := {| tagName := ""; attributes := [] |}; ancestors := []; childNodes := [] |}.

Definition firstBlock : Elem := nth 0 blocks emptyElem.
Definition noBodyBlock : Elem := nth 1 blocks emptyElem.
Definition noLinkBlock : Elem := nth 2 blocks emptyElem.

(** A browser whose direct request succeeds and whose storage works. *)
Definition browser : Service.Env :=
  {| Service.host := host;
     Service.hasWindow := true;
     Service.localStorage := Service.Present;
     Service.setItemOk := fun _ _ _ => true;
     Service.getItemOk := fun _ => true;
     Service.JSON_parse := fun _ => None;
     Service.JSON_stringify := fun _ => Some "{}";
     Service.fetchUrl := fun _ => inr "<html></html>";
     Service.fetchViaProxies := fun _ _ => FetchRacer.Resolved "<html></html>" |}.

(** The same browser when the direct request is blocked. *)
Definition blockedBrowser : Service.Env :=
  {| Service.host := host;
     Service.hasWindow := true;
     Service.localStorage := Service.Present;
     Service.setItemOk := fun _ _ _ => true;
     Service.getItemOk := fun _ => true;
     Service.JSON_parse := fun _ => None;
     Service.JSON_stringify := fun _ => Some "{}";
     Service.fetchUrl := fun _ => inl (Js.Error "Failed to fetch");
     Service.fetchViaProxies := fun _ _ => FetchRacer.Resolved "<html></html>" |}.

(** A Node.js process behind a server that answers 404. *)
Definition node : Service.Env :=
  {| Service.host := host;
     Service.hasWindow := false;
     Service.localStorage := Service.Missing;
     Service.setItemOk := fun _ _ _ => false;
     Service.getItemOk := fun _ => false;
     Service.JSON_parse := fun _ => None;
     Service.JSON_stringify := fun _ => None;
     Service.fetchUrl := fun _ => inl (Js.Error "HTTP 404");
     Service.fetchViaProxies := fun _ _ => FetchRacer.Rejected FetchRacer.TimeoutError |}.

Definition emptyState : Service.State :=
  {| Service.cache := ∅; Service.storage := ∅ |}.

(** A store whose entry for 121525 is not JSON. *)
Definition corruptState : Service.State :=
  {| Service.cache := ∅;
     Service.storage := {[ Service.storageKey "121525" := "{oops" ]} |}.

(** The four proxy URLs of a request for 15 December 2025. *)
Definition urls : list string :=
  FetchRacer.buildProxyUrls (fun u => u)
    "https://bible.usccb.org/bible/readings/121525.cfm".

(** Route 0 fails, route 2 answers 403, route 1 answers 200. *)
Definition beforeSuccess : list FetchRacer.Event :=
  [ FetchRacer.Start 0; FetchRacer.FetchRejected 0; FetchRacer.Start 1;
    FetchRacer.Start 2; FetchRacer.Response 1 true; FetchRacer.Start 3;
    FetchRacer.Response 2 false ].

(** The failure of the aborted route 3 arrives after the success. *)
Definition afterSuccess : list FetchRacer.Event := [FetchRacer.FetchRejected 3].

Definition raceWon : FetchRacer.Race :=
  Eval vm_compute in
    default (FetchRacer.start [])
      (FetchRacer.run (FetchRacer.start urls)
         (beforeSuccess ++ FetchRacer.Body 1 "<html></html>" :: afterSuccess)).

(** Every route fails before the deadline. *)
Definition allFail : list FetchRacer.Event :=
  [ FetchRacer.Start 0; FetchRacer.Start 1; FetchRacer.FetchRejected 1;
    FetchRacer.Response 0 false; FetchRacer.Start 2; FetchRacer.Start 3;
    FetchRacer.Response 3 true; FetchRacer.BodyRejected 3;
    FetchRacer.FetchRejected 2 ].

(** The routes hang until the deadline. *)
Definition beforeDeadline : list FetchRacer.Event :=
  [ FetchRacer.Start 0; FetchRacer.Start 1; FetchRacer.Start 2;
    FetchRacer.Response 0 true; FetchRacer.Start 3 ].

(** The failures of the aborted requests follow the deadline. *)
Definition afterDeadline : list FetchRacer.Event :=
  [ FetchRacer.FetchRejected 1; FetchRacer.BodyRejected 0;
    FetchRacer.FetchRejected 2; FetchRacer.FetchRejected 3 ].

End Demo.

(** ** The convenience methods built on [getReadings] *)

Module Helpers.

Import Js Service.

Definition TimeWithinDay (t : Z) : Z := t mod JsDate.msPerDay.

(** [date.setDate(dt)] (ECMA-262): the day of the month is replaced in local
    time, the time within the day is kept; [None] is [NaN]. *)
Definition setDate (d : JsDate.t) (dt : option Z) : JsDate.t :=
  t ← d; v ← dt;
  JsDate.TimeClip
    (JsDate.MakeDate
       (JsDate.MakeDay (JsDate.YearFromTime t) (JsDate.MonthFromTime t) v)
       (TimeWithinDay t)).

(** [getToday()]; [now] is the time value of [new Date()]. *)
Definition getToday (env : Env) (st : State) (now : Z)
  : (JsError + JsValue) * State :=
  getReadings env st (ArgDate (Some now)).

(** [getTomorrow()]. *)
Definition getTomorrow (env : Env) (st : State) (now : Z)
  : (JsError + JsValue) * State :=
  let tomorrow := Some now in
  let tomorrow := setDate tomorrow ((fun x => x + 1) <$> JsDate.getDate tomorrow) in
  getReadings env st (ArgDate tomorrow).

(** [getReadingsByDaysOffset(daysOffset)] for an integer offset. *)
Definition getReadingsByDaysOffset (env : Env) (st : State) (now : Z) (daysOffset : Z)
  : (JsError + JsValue) * State :=
  let targetDate := Some now in
  let targetDate :=
    setDate targetDate ((fun x => x + daysOffset) <$> JsDate.getDate targetDate) in
  getReadings env st (ArgDate targetDate).

(** [v.name] for a value other than [null]: the field of an object (whose
    field names are distinct), [None] for [undefined]. *)
Definition getProp (name : string) (v : JsValue) : option JsValue :=
  match v with
  | VObj fields => snd <$> List.find (fun kv => String.eqb (fst kv) name) fields
  | _ => None
  end.

(** [(await this.getReadings(date)).name]: reading a property of [null]
    throws a TypeError. *)
Definition project (name : string) (env : Env) (st : State) (date : Arg)
  : (JsError + option JsValue) * State :=
  match getReadings env st date with
  | (inr VNull, st') =>
      (inl {| errName := "TypeError";
              errMessage := "Cannot read properties of null" |}, st')
  | (inr readings, st') => (inr (getProp name readings), st')
  | (inl e, st') => (inl e, st')
  end.

(** [getSeason(date)]. *)
Definition getSeason : Env -> State -> Arg -> (JsError + option JsValue) * State :=
  project "season".

(** [getRank(date)]. *)
Definition getRank : Env -> State -> Arg -> (JsError + option JsValue) * State :=
  project "rank".

End Helpers.

(** ** Further notions used in the statements *)

Module Notions.

(** The enumerated seasons. *)
Definition seasonNames : list string :=
  ["Advent"; "Christmas"; "Lent"; "Easter"; "Pentecost"; "Ordinary Time"; "Unknown"].

(** No [>] in [s]. *)
Definition noGt (s : string) : bool :=
  JsString.all (fun c => negb (Ascii.eqb c ">")) s.

(** No [<] of [s] is followed, anywhere later, by a [>]. *)
Fixpoint tagFree (s : string) : bool :=
  match s with
  | EmptyString => true
  | String c r => (if Ascii.eqb c "<" then noGt r else true) && tagFree r
  end.

(** [s] contains a markup tag: a [<], then a [>] somewhere after it. *)
Definition HasTag (s : string) : Prop :=
  exists a b c, s = a ++ "<" ++ b ++ ">" ++ c.

(** [s] neither starts nor ends with white space. *)
Definition Trimmed (s : string) : Prop :=
  JsString.dropWhile JsString.isWhiteSpace s = s /\
  JsString.dropWhile JsString.isWhiteSpace (JsString.rev "" s) = JsString.rev "" s.

(** Every value of the in-memory cache passes the test of [if (v)]. *)
Definition CacheTruthy (c : gmap string Js.JsValue) : Prop :=
  forall key v, c !! key = Some v -> Js.truthy v = true.

(** Where a settled promise got its outcome from: a body that a route
    delivered, the deadline, or the last of the failures. *)
Definition Explained (done : list FetchRacer.Event) (s : FetchRacer.Race) : Prop :=
  forall o, FetchRacer.promise s = Some o ->
    (exists k text, o = FetchRacer.Resolved text /\ In (FetchRacer.Body k text) done) \/
    (o = FetchRacer.Rejected FetchRacer.TimeoutError /\ In FetchRacer.Deadline done) \/
    (o = FetchRacer.Rejected FetchRacer.AllRoutesFailedError /\
     FetchRacer.failures s = length (FetchRacer.proxyUrls s)).

(** The message [getReadings] reserves for a timeout of the proxies. *)
Definition timedOutMessage : string :=
  "Network request timed out (CORS proxies may be slow or unavailable)".

(** Every rejection the host reports for [fetchViaProxies] is the outcome of
    a run of the race. *)
Definition RaceProduced (env : Service.Env) : Prop :=
  forall url ms err,
    Service.fetchViaProxies env url ms = FetchRacer.Rejected err ->
    exists urls es s,
      FetchRacer.run (FetchRacer.start urls) es = Some s /\
      FetchRacer.promise s = Some (FetchRacer.Rejected err).

End Notions.

(** ** Further example hosts *)

Module Examples.

(** A browser that is offline, whose storage works and whose [JSON] knows
    the empty object. *)
Definition offlineBrowser : Service.Env :=
  {| Service.host := Demo.host;
     Service.hasWindow := true;
     Service.localStorage := Service.Present;
     Service.setItemOk := fun _ _ _ => true;
     Service.getItemOk := fun _ => true;
     Service.JSON_parse :=
       fun raw => if String.eqb raw "{}" then Some (Js.VObj []) else None;
     Service.JSON_stringify := fun _ => Some "{}";
     Service.fetchUrl := fun _ => inl (Js.Error "Failed to fetch");
     Service.fetchViaProxies :=
       fun _ _ => FetchRacer.Rejected FetchRacer.TimeoutError |}.

(** A store that holds an entry for 121525 and an entry of another
    application. *)
Definition storedState : Service.State :=
  {| Service.cache := ∅;
     Service.storage :=
       {[ Service.storageKey "121525" := "{}"; "theme" := "dark" ]} |}.

(** The state a successful call of the example browser leaves. *)
Definition afterFetch : Service.State :=
  Eval vm_compute in
    snd (Service.getReadings Demo.browser Demo.emptyState (Service.ArgString "121525")).

(** The state of the race after the deadline of the example run. *)
Definition raceTimedOut : FetchRacer.Race :=
  Eval vm_compute in
    default (FetchRacer.start [])
      (FetchRacer.run (FetchRacer.start Demo.urls)
         (Demo.beforeDeadline ++ FetchRacer.Deadline :: Demo.afterDeadline)).

End Examples.

(** * Properties *)

(** ** Strings *)

Lemma append_nil (t : string) : "" ++ t = t.
Proof. reflexivity. Qed.

Lemma append_cons (c : ascii) (s t : string) : String c s ++ t = String c (s ++ t).
Proof. reflexivity. Qed.

Lemma prefix_app (p s : string) : String.prefix p s = true <-> exists b, s = p ++ b.
Proof.
  revert s. induction p as [|c p IH]; intros s.
  - split; [intros _; exists s; reflexivity | intros _; destruct s; reflexivity].
  - destruct s as [|d s]; [split; [discriminate | intros [b Hb]; discriminate] |].
    cbn [String.prefix]. setoid_rewrite append_cons.
    destruct (ascii_dec c d) as [->|Hne].
    + rewrite IH. split; intros [b Hb]; exists b; congruence.
    + split; [discriminate | intros [b Hb]; congruence].
Qed.

(** [includes] decides the occurrence of a substring. *)
Lemma includes_Occurs (s sub : string) :
  JsString.includes s sub = true <-> Spec.Occurs sub s.
Proof.
  unfold Spec.Occurs. induction s as [|c s IH]; cbn [JsString.includes].
  - rewrite orb_false_r, prefix_app. split.
    + intros [b Hb]. exists "", b. exact Hb.
    + intros [a [b Hb]]. destruct a; [exists b; exact Hb | discriminate].
  - rewrite orb_true_iff, prefix_app, IH. split.
    + intros [[b Hb] | [a [b Hb]]];
        [exists "", b; exact Hb | exists (String c a), b; rewrite Hb; reflexivity].
    + intros [a [b Hb]]. destruct a as [|d a]; [left; exists b; exact Hb |].
      right. rewrite append_cons in Hb. injection Hb as _ Hb. exists a, b; exact Hb.
Qed.

Lemma toLowerCase_app (s t : string) :
  JsString.toLowerCase (s ++ t) = JsString.toLowerCase s ++ JsString.toLowerCase t.
Proof.
  induction s as [|c s IH]; [reflexivity |].
  rewrite append_cons. cbn [JsString.toLowerCase]. by rewrite IH, append_cons.
Qed.

Lemma toLowerCase_split (s x y : string) :
  JsString.toLowerCase s = x ++ y ->
  exists s1 s2, s = s1 ++ s2 /\ JsString.toLowerCase s1 = x /\ JsString.toLowerCase s2 = y.
Proof.
  revert s. induction x as [|c x IH]; intros s H.
  - exists "", s. by rewrite !append_nil in *.
  - destruct s as [|d s]; [discriminate |].
    rewrite append_cons in H. cbn [JsString.toLowerCase] in H. injection H as Hc H.
    destruct (IH s H) as (s1 & s2 & -> & H1 & H2).
    exists (String d s1), s2. rewrite append_cons. cbn [JsString.toLowerCase].
    by rewrite Hc, H1.
Qed.

Lemma sameIgnoringCase_lower (m kw : string) :
  Spec.sameIgnoringCase m kw = true <->
  JsString.toLowerCase m = JsString.toLowerCase kw.
Proof.
  revert kw.
  induction m as [|a m IH]; intros [|b kw];
    cbn [Spec.sameIgnoringCase JsString.toLowerCase];
    try (split; [discriminate | discriminate]); [done |].
  rewrite andb_true_iff, IH, Ascii.eqb_eq.
  split; [intros [-> ->]; done | intros H; by injection H].
Qed.

(** Searching a lower-case keyword in the lower-cased title is the
    case-insensitive substring test. *)
Lemma includes_lower (title kw : string) :
  JsString.toLowerCase kw = kw ->
  JsString.includes (JsString.toLowerCase title) kw = true <->
  Spec.OccursIgnoringCase kw title.
Proof.
  intros Hkw. rewrite includes_Occurs. split.
  - intros (a & b & H).
    apply toLowerCase_split in H as (s1 & s2 & -> & H1 & H2).
    apply toLowerCase_split in H2 as (m & s3 & -> & H2 & H3).
    exists s1, m, s3. split; [done |]. apply sameIgnoringCase_lower. congruence.
  - intros (a & m & b & -> & H). apply sameIgnoringCase_lower in H.
    exists (JsString.toLowerCase a), (JsString.toLowerCase b).
    rewrite !toLowerCase_app. congruence.
Qed.

(** ** First match in an ordered list *)

Lemma find_first {A} (p : A -> bool) (l before rest : list A) (x : A) :
  l = (before ++ x :: rest)%list -> p x = true ->
  (forall y, In y before -> p y = false) -> List.find p l = Some x.
Proof.
  intros -> Hx. induction before as [|y before IH]; intros Hb; cbn [List.find app].
  - by rewrite Hx.
  - rewrite (Hb y) by (left; reflexivity). apply IH. intros z Hz. apply Hb. by right.
Qed.

Lemma find_none {A} (p : A -> bool) (l : list A) :
  (forall y, In y l -> p y = false) -> List.find p l = None.
Proof.
  induction l as [|y l IH]; intros Hl; cbn [List.find]; [done |].
  rewrite (Hl y) by (left; reflexivity). apply IH. intros z Hz. apply Hl. by right.
Qed.

Lemma not_true_false (b : bool) : ~ (b = true) -> b = false.
Proof. by destruct b. Qed.

(** ** extractSeason *)

Lemma extractSeason_find (title : string) :
  title <> "" ->
  PageParser.extractSeason title =
  default "Ordinary Time" (List.find (JsString.includes title) Spec.seasonKeywords).
Proof.
  intros Hne. unfold PageParser.extractSeason.
  destruct title as [|c r]; [done |].
  cbn [JsString.truthy negb Spec.seasonKeywords List.find].
  repeat match goal with
         | |- context [JsString.includes ?s ?k] =>
             destruct (JsString.includes s k); [reflexivity |]
         end.
  reflexivity.
Qed.

(** C6: for every title, [extractSeason] returns the first keyword, in the
    order Advent, Christmas, Lent, Easter, Pentecost, "Ordinary Time", that
    occurs in the title as a case-sensitive substring; a non-empty title
    matching none of them gives "Ordinary Time", and the empty title gives
    "Unknown". *)
Theorem extractSeason_first_keyword (title : string) :
  (title = "" -> PageParser.extractSeason title = "Unknown") /\
  (title <> "" ->
   (forall before k rest,
      Spec.seasonKeywords = (before ++ k :: rest)%list ->
      Spec.Occurs k title ->
      (forall k', In k' before -> ~ Spec.Occurs k' title) ->
      PageParser.extractSeason title = k) /\
   ((forall k, In k Spec.seasonKeywords -> ~ Spec.Occurs k title) ->
    PageParser.extractSeason title = "Ordinary Time")).
Proof.
  split; [intros ->; reflexivity |].
  intros Hne. rewrite (extractSeason_find title Hne). split.
  - intros before k rest Hl Hk Hb.
    rewrite (find_first _ _ before rest k Hl); [reflexivity | by apply includes_Occurs |].
    intros y Hy. apply not_true_false. rewrite includes_Occurs. by apply Hb.
  - intros Hnone. rewrite find_none; [reflexivity |].
    intros y Hy. apply not_true_false. rewrite includes_Occurs. by apply Hnone.
Qed.

Example extractSeason_advent :
  PageParser.extractSeason "Monday of the Third Week of Advent" = "Advent".
Proof. reflexivity. Qed.

(** ** extractLiturgicalRank *)

Lemma tierb_tierMatches (title : string) (tier : list string * string) :
  In tier Spec.rankTiers -> Tools.tierb title tier = true <-> Spec.tierMatches title tier.
Proof.
  intros Hin. unfold Tools.tierb, Spec.tierMatches. rewrite existsb_exists.
  assert (Hlow : forall kw, In kw (fst tier) -> JsString.toLowerCase kw = kw).
  { cbn in Hin. intros kw Hk.
    repeat (destruct Hin as [<- | Hin]; [cbn in Hk; intuition (subst; reflexivity) |]).
    destruct Hin. }
  split; intros (kw & Hk & H); exists kw; (split; [done |]).
  - by apply includes_lower; [apply Hlow |].
  - by apply includes_lower; [apply Hlow |].
Qed.

Lemma extractLiturgicalRank_find (title : string) :
  PageParser.extractLiturgicalRank title =
  match List.find (Tools.tierb title) Spec.rankTiers with
  | Some tier => snd tier
  | None => "Ferial"
  end.
Proof.
  unfold PageParser.extractLiturgicalRank.
  destruct (JsString.truthy title) eqn:Ht; cbn [negb].
  - unfold Spec.rankTiers, Tools.tierb. cbn [List.find existsb fst snd].
    repeat match goal with
           | |- context [JsString.includes ?s ?k] =>
               destruct (JsString.includes s k); cbn [orb]; [reflexivity |]
           end.
    reflexivity.
  - destruct title; [reflexivity | discriminate].
Qed.

(** C7: for every title, [extractLiturgicalRank] answers with the rank of the
    first tier, in the fixed order Solemnity keywords, "feast", "memorial",
    "st. " or "saint ", one of whose keywords occurs in the title ignoring
    case; it answers Ferial when no tier matches and for the empty title, and
    its answer is always one of the four ranks. *)
Theorem extractLiturgicalRank_tiers (title : string) :
  (forall before tier rest,
     Spec.rankTiers = (before ++ tier :: rest)%list ->
     Spec.tierMatches title tier ->
     (forall tier', In tier' before -> ~ Spec.tierMatches title tier') ->
     PageParser.extractLiturgicalRank title = snd tier) /\
  ((forall tier, In tier Spec.rankTiers -> ~ Spec.tierMatches title tier) ->
   PageParser.extractLiturgicalRank title = "Ferial") /\
  (title = "" -> PageParser.extractLiturgicalRank title = "Ferial") /\
  In (PageParser.extractLiturgicalRank title) Spec.rankNames.
Proof.
  rewrite extractLiturgicalRank_find. split; [| split; [| split]].
  - intros before tier rest Hl Hm Hb.
    assert (Hin : forall t, In t (before ++ [tier])%list -> In t Spec.rankTiers).
    { intros t Ht. rewrite Hl. apply in_app_iff.
      apply in_app_iff in Ht as [Ht | [<- | []]]; [by left | right; by left]. }
    rewrite (find_first _ _ before rest tier Hl); [reflexivity | |].
    + apply tierb_tierMatches; [| done]. apply Hin, in_app_iff. right. by left.
    + intros y Hy. apply not_true_false. rewrite tierb_tierMatches; [by apply Hb |].
      apply Hin, in_app_iff. by left.
  - intros Hnone. rewrite find_none; [reflexivity |].
    intros y Hy. apply not_true_false.
    rewrite tierb_tierMatches; [by apply Hnone | done].
  - intros ->. reflexivity.
  - destruct (List.find (Tools.tierb title) Spec.rankTiers) as [tier |] eqn:Hf.
    + apply find_some in Hf as [Hin _]. cbn in Hin.
      repeat (destruct Hin as [<- | Hin]; [cbn; tauto |]). destruct Hin.
    + cbn; tauto.
Qed.

Example extractLiturgicalRank_examples :
  PageParser.extractLiturgicalRank "Monday of the Third Week of Advent" = "Ferial" /\
  PageParser.extractLiturgicalRank "Solemnity of Christmas" = "Solemnity" /\
  PageParser.extractLiturgicalRank "FEAST of Saint Andrew, Apostle" = "Feast".
Proof. repeat split. Qed.

(** ** Date algorithms *)

Section DateFacts.
Import JsDate.

Lemma DaysInYear_cases (y : Z) : DaysInYear y = 365 \/ DaysInYear y = 366.
Proof. unfold DaysInYear. repeat destruct (negb _); auto. Qed.

Lemma DayFromYear_succ (y : Z) : DayFromYear (y + 1) = DayFromYear y + DaysInYear y.
Proof.
  unfold DayFromYear, DaysInYear.
  repeat match goal with
         | |- context [negb (?a =? ?b)] => destruct (Z.eqb_spec a b); cbn [negb]
         end; Z.div_mod_to_equations; lia.
Qed.

Lemma DayFromYear_lt (y1 y2 : Z) : y1 < y2 -> DayFromYear y1 < DayFromYear y2.
Proof. unfold DayFromYear. intros H. Z.div_mod_to_equations. lia. Qed.

Lemma DayFromYear_le (y1 y2 : Z) : y1 <= y2 -> DayFromYear y1 <= DayFromYear y2.
Proof.
  intros H. destruct (Z.eq_dec y1 y2) as [->|]; [lia |].
  apply Z.lt_le_incl, DayFromYear_lt. lia.
Qed.

Lemma yearSearch_spec (fuel : nat) : forall y d,
  DayFromYear y <= d -> d < DayFromYear (y + Z.of_nat fuel) ->
  let r := yearSearch fuel y d in
  DayFromYear r <= d < DayFromYear (r + 1).
Proof.
  induction fuel as [|f IH]; intros y d Hlo Hhi; cbn [yearSearch].
  - cbn in Hhi. rewrite Z.add_0_r in Hhi. lia.
  - destruct (Z.leb_spec (DayFromYear (y + 1)) d) as [Hle|Hgt].
    + apply IH; [done |].
      replace (y + 1 + Z.of_nat f) with (y + Z.of_nat (S f)) by lia. done.
    + cbn. lia.
Qed.

(** [YearFromDay d] is the year whose first day is the last one not after
    [d]: the definition of [YearFromTime] in ECMA-262. *)
Lemma YearFromDay_spec (d : Z) :
  DayFromYear (YearFromDay d) <= d < DayFromYear (YearFromDay d + 1).
Proof.
  unfold YearFromDay. apply yearSearch_spec.
  - unfold DayFromYear. destruct (Z.leb_spec 0 d); Z.div_mod_to_equations; lia.
  - rewrite Z2Nat.id by (pose proof (Z.abs_nonneg d); Z.div_mod_to_equations; lia).
    unfold DayFromYear. destruct (Z.leb_spec 0 d);
      [rewrite (Z.abs_eq d) by lia | rewrite (Z.abs_neq d) by lia];
      Z.div_mod_to_equations; lia.
Qed.

Lemma YearFromDay_unique (y d : Z) :
  DayFromYear y <= d < DayFromYear (y + 1) -> YearFromDay d = y.
Proof.
  intros H. pose proof (YearFromDay_spec d) as Hs.
  destruct (Z.lt_trichotomy (YearFromDay d) y) as [Hlt | [-> | Hgt]]; [| done |].
  - pose proof (DayFromYear_le (YearFromDay d + 1) y ltac:(lia)). lia.
  - pose proof (DayFromYear_le (y + 1) (YearFromDay d) ltac:(lia)). lia.
Qed.

Lemma Day_MakeDate (d : Z) : Day (MakeDate d (MakeTime 0 0 0 0)) = d.
Proof. unfold Day, MakeDate, MakeTime, msPerDay. Z.div_mod_to_equations. lia. Qed.

Lemma DayWithinYear_range (t : Z) :
  0 <= DayWithinYear t < DaysInYear (YearFromTime t).
Proof.
  unfold DayWithinYear, YearFromTime.
  pose proof (YearFromDay_spec (Day t)) as H.
  rewrite DayFromYear_succ in H. lia.
Qed.

Ltac split_ltb :=
  repeat match goal with
         | |- context [?a <? ?b] => destruct (Z.ltb_spec a b)
         end.

Lemma MonthFromTime_range (t : Z) : 0 <= MonthFromTime t <= 11.
Proof. unfold MonthFromTime. split_ltb; lia. Qed.

Lemma DateFromTime_range (t : Z) : 1 <= DateFromTime t <= 31.
Proof.
  pose proof (DayWithinYear_range t) as Hd.
  unfold DateFromTime, MonthFromTime, InLeapYear in *.
  destruct (DaysInYear_cases (YearFromTime t)) as [Hy | Hy]; rewrite Hy in *;
    cbn [Z.eqb Pos.eqb] in *; cbv zeta;
    split_ltb; cbv iota beta; lia.
Qed.

Lemma monthStart_range (mn len : Z) : 0 <= monthStart mn len <= 335.
Proof.
  unfold monthStart. destruct (len =? 366);
    (destruct mn as [|p|p]; [lia | | lia]);
    do 4 (try (destruct p as [p|p|]; try lia)).
Qed.

Lemma MakeDay_in_year (y m dt : Z) :
  0 <= m <= 11 ->
  MakeDay y m dt = DayFromYear y + monthStart m (DaysInYear y) + dt - 1.
Proof.
  intros Hm. unfold MakeDay.
  rewrite (Z.div_small m 12), (Z.mod_small m 12), Z.add_0_r by lia. reflexivity.
Qed.

(** [MakeDay] inverts the three calendar getters. *)
Lemma MakeDay_getters (t : Z) :
  MakeDay (YearFromTime t) (MonthFromTime t) (DateFromTime t) = Day t.
Proof.
  rewrite MakeDay_in_year by apply MonthFromTime_range.
  pose proof (DayWithinYear_range t) as Hd.
  unfold DateFromTime, MonthFromTime, InLeapYear, monthStart in *.
  unfold DayWithinYear in *.
  destruct (DaysInYear_cases (YearFromTime t)) as [Hy | Hy]; rewrite Hy in *;
    cbn [Z.eqb Pos.eqb] in *; cbv zeta;
    split_ltb; cbv iota beta; lia.
Qed.

Lemma daysInMonth_monthStart (y mm dd : Z) :
  1 <= mm <= 12 -> 1 <= dd <= Spec.daysInMonth y mm ->
  0 <= monthStart (mm - 1) (DaysInYear y) + dd - 1 < DaysInYear y.
Proof.
  intros Hm Hd.
  assert (Hc : mm = 1 \/ mm = 2 \/ mm = 3 \/ mm = 4 \/ mm = 5 \/ mm = 6 \/ mm = 7 \/
               mm = 8 \/ mm = 9 \/ mm = 10 \/ mm = 11 \/ mm = 12) by lia.
  destruct (DaysInYear_cases y) as [Hy | Hy];
    repeat (destruct Hc as [-> | Hc]);
      try subst mm; unfold Spec.daysInMonth, monthStart in *; rewrite Hy in *;
      cbn in *;
      match goal with
      | |- context [match ?a - 1 with _ => _ end] =>
          let v := eval vm_compute in (a - 1) in change (a - 1) with v
      end; cbv iota; lia.
Qed.

(** A day of the calendar lies in the year it is written in. *)
Lemma existing_day_year (y mm dd : Z) :
  1 <= mm <= 12 -> 1 <= dd <= Spec.daysInMonth y mm ->
  YearFromDay (MakeDay y (mm - 1) dd) = y.
Proof.
  intros Hm Hd. apply YearFromDay_unique.
  rewrite MakeDay_in_year, DayFromYear_succ by lia.
  pose proof (daysInMonth_monthStart y mm dd Hm Hd). lia.
Qed.

End DateFacts.

(** ** DateCodec *)

Lemma isDigit_inv (c : ascii) : JsString.isDigit c = true -> In c Tools.digitChars.
Proof.
  destruct c as [[] [] [] [] [] [] [] []]; cbn; try discriminate; intros _; tauto.
Qed.

Lemma digitValue_range (c : ascii) :
  In c Tools.digitChars -> 0 <= JsString.digitValue c <= 9.
Proof.
  intros H. cbn in H.
  repeat (destruct H as [<- | H]; [vm_compute; split; discriminate |]). destruct H.
Qed.

Lemma parseInt_two (c1 c2 : ascii) :
  In c1 Tools.digitChars -> In c2 Tools.digitChars ->
  JsString.parseInt (String c1 (String c2 "")) =
  Some (10 * JsString.digitValue c1 + JsString.digitValue c2).
Proof.
  intros H1 H2. cbn in H1, H2.
  repeat (destruct H1 as [<- | H1];
          [repeat (destruct H2 as [<- | H2]; [reflexivity |]); destruct H2 |]).
  destruct H1.
Qed.

Lemma parseInt_year (c1 c2 : ascii) :
  In c1 Tools.digitChars -> In c2 Tools.digitChars ->
  JsString.parseInt ("20" ++ String c1 (String c2 "")) =
  Some (2000 + (10 * JsString.digitValue c1 + JsString.digitValue c2)).
Proof.
  intros H1 H2. cbn in H1, H2.
  repeat (destruct H1 as [<- | H1];
          [repeat (destruct H2 as [<- | H2]; [reflexivity |]); destruct H2 |]).
  destruct H1.
Qed.

Lemma sixDigits_inv (key : string) :
  DateCodec.sixDigits key = true ->
  exists c1 c2 c3 c4 c5 c6,
    key = String c1 (String c2 (String c3 (String c4 (String c5 (String c6 ""))))) /\
    In c1 Tools.digitChars /\ In c2 Tools.digitChars /\ In c3 Tools.digitChars /\
    In c4 Tools.digitChars /\ In c5 Tools.digitChars /\ In c6 Tools.digitChars.
Proof.
  unfold DateCodec.sixDigits. intros H. apply andb_true_iff in H as [Hl Ha].
  destruct key as [|c1 [|c2 [|c3 [|c4 [|c5 [|c6 [|c7 r]]]]]]]; try discriminate.
  cbn [JsString.all] in Ha.
  repeat (apply andb_true_iff in Ha as [?%isDigit_inv Ha]).
  by exists c1, c2, c3, c4, c5, c6.
Qed.

Lemma digits_sixDigits (c1 c2 c3 c4 c5 c6 : ascii) :
  In c1 Tools.digitChars -> In c2 Tools.digitChars -> In c3 Tools.digitChars ->
  In c4 Tools.digitChars -> In c5 Tools.digitChars -> In c6 Tools.digitChars ->
  DateCodec.sixDigits
    (String c1 (String c2 (String c3 (String c4 (String c5 (String c6 "")))))) = true.
Proof.
  assert (Hd : forall c, In c Tools.digitChars -> JsString.isDigit c = true).
  { intros c H. cbn in H. repeat (destruct H as [<- | H]; [reflexivity |]). destruct H. }
  intros. unfold DateCodec.sixDigits. cbn [String.length Nat.eqb JsString.all andb].
  by rewrite !Hd.
Qed.

(** What [parseDateString] returns on six digits: the day [MakeDay] computes
    from the three fields, whatever they are. *)
Lemma parseDateString_digits (c1 c2 c3 c4 c5 c6 : ascii) :
  In c1 Tools.digitChars -> In c2 Tools.digitChars -> In c3 Tools.digitChars ->
  In c4 Tools.digitChars -> In c5 Tools.digitChars -> In c6 Tools.digitChars ->
  let mm := 10 * JsString.digitValue c1 + JsString.digitValue c2 in
  let dd := 10 * JsString.digitValue c3 + JsString.digitValue c4 in
  let yy := 10 * JsString.digitValue c5 + JsString.digitValue c6 in
  DateCodec.parseDateString
    (String c1 (String c2 (String c3 (String c4 (String c5 (String c6 "")))))) =
  inr (Some (JsDate.MakeDate (JsDate.MakeDay (2000 + yy) (mm - 1) dd)
                             (JsDate.MakeTime 0 0 0 0))).
Proof.
  intros H1 H2 H3 H4 H5 H6 mm dd yy. unfold DateCodec.parseDateString.
  rewrite digits_sixDigits by done. cbn [negb].
  change (JsString.substring 0 2 _) with (String c1 (String c2 "")).
  change (JsString.substring 2 4 _) with (String c3 (String c4 "")).
  change (JsString.substring 4 6 _) with (String c5 (String c6 "")).
  rewrite !parseInt_two, parseInt_year by done.
  fold mm dd yy.
  pose proof (digitValue_range _ H1). pose proof (digitValue_range _ H2).
  pose proof (digitValue_range _ H3). pose proof (digitValue_range _ H4).
  pose proof (digitValue_range _ H5). pose proof (digitValue_range _ H6).
  unfold JsDate.make. cbn [fmap option_fmap option_map mbind option_bind].
  destruct (Z.leb_spec (2000 + yy) 99) as [Hle|_]; [lia |]. rewrite andb_false_r.
  unfold JsDate.TimeClip.
  destruct (Z.ltb_spec 8640000000000000
              (Z.abs (JsDate.MakeDate (JsDate.MakeDay (2000 + yy) (Z.pred mm) dd)
                                      (JsDate.MakeTime 0 0 0 0)))) as [Hbig|_].
  - exfalso. revert Hbig.
    unfold JsDate.MakeDate, JsDate.MakeTime, JsDate.MakeDay, JsDate.msPerDay.
    pose proof (monthStart_range (Z.pred mm mod 12)
                  (JsDate.DaysInYear (2000 + yy + Z.pred mm / 12))).
    unfold JsDate.DayFromYear. Z.div_mod_to_equations. lia.
  - reflexivity.
Qed.

(** A string that is not six digits is a format error. *)
Lemma parseDateString_format (key : string) :
  DateCodec.sixDigits key = false ->
  DateCodec.parseDateString key = inl DateCodec.FormatError.
Proof. intros H. unfold DateCodec.parseDateString. by rewrite H. Qed.

(** Six digits are never rejected: the test on [getTime] cannot fail, since
    the constructor carries months and days that are out of range over into
    the neighbouring months and years. *)
Lemma parseDateString_accepts_all_digits (key : string) :
  DateCodec.sixDigits key = true ->
  exists t, DateCodec.parseDateString key = inr (Some t).
Proof.
  intros H. destruct (sixDigits_inv key H) as (c1 & c2 & c3 & c4 & c5 & c6 & -> & ?).
  rewrite parseDateString_digits by tauto. eauto.
Qed.

(** C1: [parseDateString] rejects a string that is not six digits, and should
    reject "023099" (30 February) as an invalid date; the code accepts it and
    returns 2 March 2099, the day the date constructor overflows to, whose key
    is "030299". *)
Theorem parseDateString_accepts_feb30 :
  DateCodec.parseDateString "02309" = inl DateCodec.FormatError /\
  DateCodec.parseDateString "023099" =
    inr (JsDate.make (Some 2099) (Some 2) (Some 2)) /\
  JsDate.getMonth (JsDate.make (Some 2099) (Some 2) (Some 2)) = Some 2 /\
  JsDate.getDate (JsDate.make (Some 2099) (Some 2) (Some 2)) = Some 2 /\
  DateCodec.formatDateForUrl (JsDate.make (Some 2099) (Some 2) (Some 2)) = "030299".
Proof. repeat split; vm_compute; reflexivity. Qed.

Lemma twoDigitsOf_inv (s : string) (n : Z) :
  Tools.twoDigitsOf s n = true ->
  exists c1 c2, s = String c1 (String c2 "") /\
                In c1 Tools.digitChars /\ In c2 Tools.digitChars /\
                10 * JsString.digitValue c1 + JsString.digitValue c2 = n.
Proof.
  destruct s as [|c1 [|c2 [|]]]; try discriminate. cbn [Tools.twoDigitsOf].
  intros H. apply andb_true_iff in H as [H H3]. apply andb_true_iff in H as [H1 H2].
  exists c1, c2.
  repeat split; [by apply isDigit_inv | by apply isDigit_inv | by apply Z.eqb_eq].
Qed.

Lemma below_hundred (p : Z -> bool) :
  forallb (fun k => p (Z.of_nat k)) (seq 0 100) = true ->
  forall n, 0 <= n <= 99 -> p n = true.
Proof.
  intros H n Hn. rewrite forallb_forall in H.
  rewrite <- (Z2Nat.id n) by lia. apply H, in_seq. lia.
Qed.

Lemma padStart_two (n : Z) :
  0 <= n <= 99 ->
  Tools.twoDigitsOf (JsString.padStart 2 "0" (JsString.ofInt n)) n = true.
Proof.
  apply (below_hundred
           (fun n => Tools.twoDigitsOf (JsString.padStart 2 "0" (JsString.ofInt n)) n)).
  vm_compute. reflexivity.
Qed.

Lemma slice_year (y : Z) :
  2000 <= y <= 2099 ->
  Tools.twoDigitsOf (JsString.slice (-2) (JsString.ofInt y)) (y - 2000) = true.
Proof.
  intros Hy.
  pose proof (below_hundred
    (fun n => Tools.twoDigitsOf (JsString.slice (-2) (JsString.ofInt (2000 + n))) n)
    ltac:(vm_compute; reflexivity) (y - 2000) ltac:(lia)) as H.
  cbv beta in H. by replace (2000 + (y - 2000)) with y in H by lia.
Qed.

(** Encoding a day of the years 2000..2099 and decoding the key gives the day
    back. *)
Lemma parse_format_day (D : Z) :
  2000 <= JsDate.YearFromDay D <= 2099 ->
  let d := Some (JsDate.MakeDate D (JsDate.MakeTime 0 0 0 0)) in
  DateCodec.parseDateString (DateCodec.formatDateForUrl d) = inr d.
Proof.
  intros Hy d. set (t := JsDate.MakeDate D (JsDate.MakeTime 0 0 0 0)).
  assert (HD : JsDate.Day t = D) by apply Day_MakeDate.
  assert (Hyt : JsDate.YearFromTime t = JsDate.YearFromDay D)
    by (unfold JsDate.YearFromTime; by rewrite HD).
  pose proof (MonthFromTime_range t) as Hm. pose proof (DateFromTime_range t) as Hd.
  unfold DateCodec.formatDateForUrl, d.
  cbn [JsDate.getMonth JsDate.getDate JsDate.getFullYear JsDate.numberToString
       fmap option_fmap option_map]. fold t.
  destruct (twoDigitsOf_inv _ _ (padStart_two (Z.succ (JsDate.MonthFromTime t)) ltac:(lia)))
    as (c1 & c2 & -> & H1 & H2 & Hmm).
  destruct (twoDigitsOf_inv _ _ (padStart_two (JsDate.DateFromTime t) ltac:(lia)))
    as (c3 & c4 & -> & H3 & H4 & Hdd).
  destruct (twoDigitsOf_inv _ _ (slice_year (JsDate.YearFromTime t) ltac:(lia)))
    as (c5 & c6 & -> & H5 & H6 & Hyy).
  change (String c1 (String c2 "") ++ String c3 (String c4 "") ++ String c5 (String c6 ""))
    with (String c1 (String c2 (String c3 (String c4 (String c5 (String c6 "")))))).
  rewrite parseDateString_digits by done. cbv zeta.
  rewrite Hmm, Hdd, Hyy.
  replace (2000 + (JsDate.YearFromTime t - 2000)) with (JsDate.YearFromTime t) by lia.
  replace (Z.succ (JsDate.MonthFromTime t) - 1) with (JsDate.MonthFromTime t) by lia.
  by rewrite MakeDay_getters, HD.
Qed.

(** C8: for every valid key K (six digits naming a day of the calendar),
    decoding K, encoding the date and decoding again gives the date decoded
    from K. *)
Theorem date_key_round_trip (key : string) :
  Spec.validKey key = true ->
  exists d, DateCodec.parseDateString key = inr d /\
            DateCodec.parseDateString (DateCodec.formatDateForUrl d) = inr d.
Proof.
  unfold Spec.validKey. intros H. apply andb_true_iff in H as [H6 Hv].
  destruct (sixDigits_inv key H6)
    as (c1 & c2 & c3 & c4 & c5 & c6 & -> & H1 & H2 & H3 & H4 & H5 & H6').
  change (JsString.substring 0 2 _) with (String c1 (String c2 "")) in Hv.
  change (JsString.substring 2 4 _) with (String c3 (String c4 "")) in Hv.
  change (JsString.substring 4 6 _) with (String c5 (String c6 "")) in Hv.
  rewrite !parseInt_two in Hv by done.
  repeat (apply andb_true_iff in Hv as [Hv ?]).
  rewrite parseDateString_digits by done. cbv zeta.
  eexists. split; [reflexivity |].
  pose proof (digitValue_range _ H5). pose proof (digitValue_range _ H6').
  apply parse_format_day. rewrite existing_day_year by lia. lia.
Qed.

Lemma date_key_round_trip_witness :
  Spec.validKey "121525" = true /\
  exists d, DateCodec.parseDateString "121525" = inr d /\
            DateCodec.parseDateString (DateCodec.formatDateForUrl d) = inr d.
Proof.
  split; [reflexivity | apply (date_key_round_trip "121525"); reflexivity].
Defined.

(** The round trip is a property of keys that name a day: the code also
    decodes "000000", to 30 November 1999, whose key decodes to 2099. *)
Example overflowing_key_not_stable :
  exists d, DateCodec.parseDateString "000000" = inr d /\
            DateCodec.formatDateForUrl d = "113099" /\
            DateCodec.parseDateString (DateCodec.formatDateForUrl d) <> inr d.
Proof.
  eexists. split; [vm_compute; reflexivity |]. split; [vm_compute; reflexivity |].
  vm_compute. discriminate.
Qed.

(** ** Verse blocks *)

Section VerseBlocks.
Import Dom PageParser.
Variable h : Host.

Lemma collectReadings_app (l1 l2 : list Elem) :
  collectReadings h (l1 ++ l2)%list =
  (collectReadings h l1 ++ collectReadings h l2)%list.
Proof. apply omap_app. Qed.

(** The guard of [parseReadingBlock]: a block is rejected when the name or
    the body is missing. *)
Lemma parseReadingBlock_None (block : Elem) :
  parseReadingBlock h block = None <->
  querySelector nameSelector block = None \/ querySelector bodySelector block = None.
Proof.
  unfold parseReadingBlock.
  destruct (querySelector nameSelector block), (querySelector bodySelector block);
    split; intros H; try done; auto; destruct H; discriminate.
Qed.

Lemma parseReadingBlock_Some (block nameEl bodyEl : Elem) :
  querySelector nameSelector block = Some nameEl ->
  querySelector bodySelector block = Some bodyEl ->
  exists r, parseReadingBlock h block = Some r /\
            name r = JsString.trim (textContent nameEl) /\
            text r = extractTextContent h bodyEl /\
            (referenceLink block = None -> reference r = "" /\ referenceUrl r = "").
Proof.
  intros Hn Hb. unfold parseReadingBlock. rewrite Hn, Hb.
  eexists. split; [reflexivity |]. cbn [name text reference referenceUrl].
  split; [reflexivity | split; [reflexivity | intros ->; split; reflexivity]].
Qed.

(** C3, as the code has it: a verse block is left out of the output sequence
    exactly when it lacks its name label or its body (either one is enough),
    the other blocks keeping their order; a block with a name and a body is
    kept, and when it has no reference link its reference and referenceUrl
    are empty strings. *)
Theorem verse_block_kept_or_dropped
  (doc : Elem) (iso : string) (d : JsDate.t) (pre post : list Elem) (b : Elem) :
  verseBlocks doc = (pre ++ b :: post)%list ->
  let out := readings (parseDocument h doc iso d) in
  ((querySelector nameSelector b = None \/ querySelector bodySelector b = None) ->
   out = (collectReadings h pre ++ collectReadings h post)%list) /\
  (forall nameEl bodyEl,
     querySelector nameSelector b = Some nameEl ->
     querySelector bodySelector b = Some bodyEl ->
     exists r,
       out = (collectReadings h pre ++ r :: collectReadings h post)%list /\
       name r = JsString.trim (textContent nameEl) /\
       text r = extractTextContent h bodyEl /\
       (referenceLink b = None -> reference r = "" /\ referenceUrl r = "")).
Proof.
  intros Hv out. subst out. cbn [readings parseDocument]. rewrite Hv.
  rewrite collectReadings_app.
  change (collectReadings h (b :: post))
    with (match parseReadingBlock h b with
          | Some r => r :: collectReadings h post
          | None => collectReadings h post
          end).
  split.
  - intros Hmiss. apply parseReadingBlock_None in Hmiss. by rewrite Hmiss.
  - intros nameEl bodyEl Hn Hb.
    destruct (parseReadingBlock_Some b nameEl bodyEl Hn Hb) as (r & Hr & H).
    exists r. by rewrite Hr.
Qed.

End VerseBlocks.

Lemma verse_block_kept_or_dropped_witness :
  PageParser.verseBlocks (Dom.document Demo.page) =
    ([Demo.firstBlock; Demo.noBodyBlock] ++ Demo.noLinkBlock :: [])%list /\
  exists r,
    PageParser.readings
      (PageParser.parseDocument Demo.host (Dom.document Demo.page) "2025-12-15" None) =
      (PageParser.collectReadings Demo.host [Demo.firstBlock; Demo.noBodyBlock]
         ++ r :: PageParser.collectReadings Demo.host [])%list /\
    PageParser.reference r = "" /\ PageParser.referenceUrl r = "".
Proof.
  split; [reflexivity |].
  destruct (verse_block_kept_or_dropped Demo.host (Dom.document Demo.page)
              "2025-12-15" None [Demo.firstBlock; Demo.noBodyBlock] []
              Demo.noLinkBlock eq_refl) as [_ H].
  destruct (H _ _ eq_refl eq_refl) as (r & Hout & _ & _ & Href).
  exists r. split; [exact Hout | exact (Href eq_refl)].
Defined.

(** The second verse block of the example page has a name label and no body;
    it is dropped although it does not miss both. *)
Lemma named_block_without_body_dropped :
  ~ (forall (h : PageParser.Host) (doc b : Dom.Elem),
       In b (PageParser.verseBlocks doc) ->
       PageParser.parseReadingBlock h b = None ->
       Dom.querySelector PageParser.nameSelector b = None /\
       Dom.querySelector PageParser.bodySelector b = None).
Proof.
  intros H.
  destruct (H Demo.host (Dom.document Demo.page) Demo.noBodyBlock) as [Hn _].
  - right; left; reflexivity.
  - reflexivity.
  - discriminate Hn.
Qed.

Example example_page_parsed :
  let r := PageParser.parseDocument Demo.host (Dom.document Demo.page) "2025-12-15" None in
  PageParser.season r = "Advent" /\ PageParser.rank r = "Ferial" /\
  PageParser.lectionary r = "187" /\
  List.map PageParser.name (PageParser.readings r) = ["Reading 1"; "Gospel"].
Proof. repeat split. Qed.

(** ** The race of the proxies *)

Section Race.
Import Js FetchRacer RaceInvariants.

Lemma live_replicate_waiting (n : nat) : live (replicate n Waiting) = n.
Proof. induction n; cbn; congruence. Qed.

Lemma live_insert_keep (rs : list Phase) (i : nat) (p q : Phase) :
  rs !! i = Some p -> p <> Finished -> q <> Finished ->
  live (<[i := q]> rs) = live rs.
Proof.
  revert i. induction rs as [|r rs IH]; intros [|i] H Hp Hq; try discriminate.
  - cbn in H. injection H as ->. cbn. destruct p, q; congruence.
  - cbn in H. change (<[S i := q]> (r :: rs)) with (r :: <[i := q]> rs).
    destruct r; cbn [live]; rewrite (IH i H Hp Hq); reflexivity.
Qed.

Lemma live_insert_finished (rs : list Phase) (i : nat) (p : Phase) :
  rs !! i = Some p -> p <> Finished ->
  S (live (<[i := Finished]> rs)) = live rs.
Proof.
  revert i. induction rs as [|r rs IH]; intros [|i] H Hp; try discriminate.
  - cbn in H. injection H as ->. cbn. destruct p; congruence.
  - cbn in H. change (<[S i := Finished]> (r :: rs)) with (r :: <[i := Finished]> rs).
    destruct r; cbn [live]; rewrite <- (IH i H Hp); reflexivity.
Qed.

Lemma live_zero (rs : list Phase) (i : nat) (p : Phase) :
  live rs = O -> rs !! i = Some p -> p = Finished.
Proof.
  revert i. induction rs as [|r rs IH]; intros [|i] H0 H; try discriminate.
  - cbn in H. injection H as ->. destruct p; cbn in H0; congruence.
  - cbn in H. destruct r; cbn in H0; try discriminate. eauto.
Qed.

Lemma start_inv (urls : list string) : Inv (start urls).
Proof.
  split; cbn.
  - apply length_replicate.
  - apply length_replicate.
  - done.
  - discriminate.
  - done.
  - rewrite live_replicate_waiting. lia.
Qed.

Lemma lookup_insert_phase (rs : list Phase) (i j : nat) (p q : Phase) :
  <[i := q]> rs !! j = Some p ->
  (i = j /\ p = q) \/ (i <> j /\ rs !! j = Some p).
Proof.
  intros H. destruct (decide (i = j)) as [->|Hne].
  - left. split; [done |].
    destruct (decide (j < length rs)%nat).
    + rewrite list_lookup_insert_eq in H by done. congruence.
    + rewrite list_insert_ge in H by lia.
      apply lookup_lt_Some in H. lia.
  - right. by rewrite list_lookup_insert_ne in H.
Qed.

Lemma onFailure_inv (s : Race) (i : nat) (p : Phase) :
  Inv s -> routes s !! i = Some p -> p = Fetching \/ p = Reading ->
  Inv (onFailure i s).
Proof.
  intros [Hr Ha Harm Hset Hpro Hcnt] Hi Hp.
  assert (Hnf : p <> Finished) by (destruct Hp; congruence).
  pose proof (live_insert_finished _ _ _ Hi Hnf) as Hlive.
  unfold onFailure.
  destruct ((S (failures s) =? length (proxyUrls s))%nat && negb (settled s)) eqn:Hc.
  - apply andb_true_iff in Hc as [Hn Hs]. apply Nat.eqb_eq in Hn.
    apply negb_true_iff in Hs.
    assert (Hz : live (<[i := Finished]> (routes s)) = O) by lia.
    split; cbn.
    + by rewrite length_insert.
    + done.
    + destruct (globalTimer s); discriminate.
    + congruence.
    + intros j q _ _ Hj Hq. by rewrite (live_zero _ _ _ Hz Hj) in Hq.
    + lia.
  - split; cbn.
    + by rewrite length_insert.
    + done.
    + done.
    + intros j q Hs Hj Hq. apply lookup_insert_phase in Hj as [[_ ->] | [_ Hj]].
      * destruct Hq; discriminate.
      * eauto.
    + intros j q Hs1 Hs2 Hj Hq. apply lookup_insert_phase in Hj as [[_ ->] | [_ Hj]].
      * done.
      * eauto.
    + lia.
Qed.

Lemma setRoute_inv (s : Race) (i : nat) (p q : Phase) :
  Inv s -> routes s !! i = Some p -> p <> Finished ->
  (q = Finished \/
   (q <> Finished /\
    (settled s = true \/ promise s <> None -> aborted s !! i = Some true))) ->
  Inv (setRoute i q s).
Proof.
  intros [Hr Ha Harm Hset Hpro Hcnt] Hi Hp Hq. split; cbn.
  - by rewrite length_insert.
  - done.
  - done.
  - intros j r Hs Hj Hr'. apply lookup_insert_phase in Hj as [[<- ->] | [_ Hj]].
    + destruct Hq as [-> | [_ Hq]]; [destruct Hr'; discriminate | auto].
    + eauto.
  - intros j r Hs1 Hs2 Hj Hr'. apply lookup_insert_phase in Hj as [[<- ->] | [_ Hj]].
    + destruct Hq as [-> | [_ Hq]]; [done | auto].
    + eauto.
  - destruct Hq as [-> | [Hq _]].
    + pose proof (live_insert_finished _ _ _ Hi Hp). lia.
    + rewrite (live_insert_keep _ _ _ _ Hi Hp Hq). lia.
Qed.

Lemma isAborted_false (s : Race) (i : nat) :
  isAborted i s = false -> aborted s !! i = Some false.
Proof. unfold isAborted. destruct (aborted s !! i) as [[]|]; cbn; congruence. Qed.

(** A request that can still fulfil belongs to a race nobody has decided. *)
Lemma undecided (s : Race) (i : nat) (p : Phase) :
  Inv s -> routes s !! i = Some p -> p = Fetching \/ p = Reading ->
  isAborted i s = false -> settled s = false /\ promise s = None.
Proof.
  intros [Hr Ha Harm Hset Hpro Hcnt] Hi Hp Hab. apply isAborted_false in Hab.
  assert (Hs : settled s = false).
  { destruct (settled s) eqn:Hs; [| done].
    specialize (Hset i p eq_refl Hi Hp). congruence. }
  split; [done |]. destruct (promise s) eqn:Hpr; [| done].
  assert (Hnf : p <> Finished) by (destruct Hp; congruence).
  specialize (Hpro i p ltac:(discriminate) Hs Hi Hnf). congruence.
Qed.

Lemma onBody_inv (s : Race) (i : nat) (text : string) :
  Inv s -> routes s !! i = Some Reading -> Inv (onBody i text s).
Proof.
  intros HI Hi. pose proof HI as [Hr Ha Harm Hset Hpro Hcnt]. unfold onBody.
  destruct (settled s) eqn:Hs.
  - apply (setRoute_inv s i Reading); auto; discriminate.
  - pose proof (live_insert_finished _ _ Reading Hi ltac:(discriminate)) as Hlive.
    split; cbn.
    + by rewrite length_insert.
    + by rewrite length_imap.
    + destruct (globalTimer s); discriminate.
    + intros j q _ Hj Hq. apply lookup_insert_phase in Hj as [[_ ->] | [Hne Hj]].
      * destruct Hq; discriminate.
      * rewrite list_lookup_imap.
        destruct (aborted s !! j) as [a|] eqn:Haj.
        -- cbn. destruct (Nat.eqb_spec j i); [congruence | done].
        -- apply lookup_lt_Some in Hj. apply lookup_ge_None in Haj. lia.
    + discriminate.
    + lia.
Qed.

Lemma onDeadline_inv (s : Race) : Inv s -> globalTimer s = Armed -> Inv (onDeadline s).
Proof.
  intros [Hr Ha Harm Hset Hpro Hcnt] Ht. destruct (Harm Ht) as [Hs Hp].
  unfold onDeadline. rewrite Hs. split; cbn.
  - done.
  - by rewrite length_fmap.
  - discriminate.
  - congruence.
  - intros j q _ _ Hj _. rewrite list_lookup_fmap.
    destruct (aborted s !! j) eqn:Haj; [done |].
    apply lookup_lt_Some in Hj. apply lookup_ge_None in Haj. lia.
  - done.
Qed.

Lemma step_inv (s : Race) (e : Event) (s' : Race) :
  Inv s -> step s e = Some s' -> Inv s'.
Proof.
  intros HI. destruct e as [| i | i ok | i | i text | i]; cbn [step].
  - destruct (globalTimer s) eqn:Ht; try discriminate.
    intros [= <-]. by apply onDeadline_inv.
  - destruct (routes s !! i) as [[]|] eqn:Hi; try discriminate.
    intros [= <-]. destruct (settled s) eqn:Hs.
    + apply (setRoute_inv s i Waiting); auto; discriminate.
    + apply (setRoute_inv s i Waiting); auto; try discriminate.
      right. split; [discriminate |]. intros [? | Hp]; [congruence |].
      eapply (inv_promise s HI); eauto; discriminate.
  - destruct (routes s !! i) as [[]|] eqn:Hi; try discriminate.
    destruct (isAborted i s) eqn:Hab; try discriminate.
    intros [= <-]. destruct ok.
    + apply (setRoute_inv s i Fetching); auto; try discriminate.
      right. split; [discriminate |].
      destruct (undecided s i Fetching HI Hi ltac:(auto) Hab) as [Hs Hp].
      intros [? | ?]; congruence.
    + apply (onFailure_inv s i Fetching); auto.
  - destruct (routes s !! i) as [[]|] eqn:Hi; try discriminate.
    intros [= <-]. apply (onFailure_inv s i Fetching); auto.
  - destruct (routes s !! i) as [[]|] eqn:Hi; try discriminate.
    destruct (isAborted i s) eqn:Hab; try discriminate.
    intros [= <-]. by apply onBody_inv.
  - destruct (routes s !! i) as [[]|] eqn:Hi; try discriminate.
    intros [= <-]. apply (onFailure_inv s i Reading); auto.
Qed.

Lemma run_inv (es : list Event) : forall s s', Inv s -> run s es = Some s' -> Inv s'.
Proof.
  induction es as [|e es IH]; intros s s' HI; cbn [run].
  - by intros [= <-].
  - destruct (step s e) as [s1|] eqn:He; [| discriminate].
    apply IH. by eapply step_inv.
Qed.

Lemma run_app (es1 es2 : list Event) (s s' : Race) :
  run s (es1 ++ es2)%list = Some s' <->
  exists s1, run s es1 = Some s1 /\ run s1 es2 = Some s'.
Proof.
  revert s. induction es1 as [|e es1 IH]; intros s; cbn [run app].
  - split; [eauto | intros (s1 & [= <-] & H); done].
  - destruct (step s e) as [s1|]; [apply IH |].
    split; [discriminate | intros (s1 & H & _); discriminate].
Qed.

(** Unfolds one callback into the cases of its tests. *)
Ltac step_cases He :=
  cbn [step] in He;
  repeat match type of He with
         | context [match ?x with _ => _ end] => destruct x eqn:?; try discriminate
         end;
  injection He as <-;
  unfold onDeadline, onFailure, onBody, setRoute;
  repeat match goal with
         | |- context [if ?x then _ else _] => destruct x
         end.

(** A settled promise keeps its outcome. *)
Lemma step_promise (s : Race) (e : Event) (s' : Race) (o : Outcome) :
  step s e = Some s' -> promise s = Some o -> promise s' = Some o.
Proof.
  intros He Hp.
  destruct e as [| i | i ok | i | i text | i]; step_cases He; cbn; rewrite ?Hp; done.
Qed.

Lemma run_promise (es : list Event) : forall s s' o,
  run s es = Some s' -> promise s = Some o -> promise s' = Some o.
Proof.
  induction es as [|e es IH]; intros s s' o; cbn [run].
  - by intros [= <-].
  - destruct (step s e) as [s1|] eqn:He; [| discriminate].
    intros Hr Hp. eapply IH; [done |]. by eapply step_promise.
Qed.

(** An aborted controller stays aborted. *)
Lemma step_aborted (s : Race) (e : Event) (s' : Race) (i : nat) :
  step s e = Some s' -> aborted s !! i = Some true -> aborted s' !! i = Some true.
Proof.
  intros He Ha.
  destruct e as [| j | j ok | j | j text | j]; step_cases He; cbn; try done.
  - by rewrite list_lookup_fmap, Ha.
  - rewrite list_lookup_imap, Ha. cbn. by destruct (i =? j)%nat.
Qed.

Lemma run_aborted (es : list Event) : forall s s' i,
  run s es = Some s' -> aborted s !! i = Some true -> aborted s' !! i = Some true.
Proof.
  induction es as [|e es IH]; intros s s' i; cbn [run].
  - by intros [= <-].
  - destruct (step s e) as [s1|] eqn:He; [| discriminate].
    intros Hr Ha. eapply IH; [done |]. by eapply step_aborted.
Qed.

Lemma step_proxyUrls (s : Race) (e : Event) (s' : Race) :
  step s e = Some s' -> proxyUrls s' = proxyUrls s.
Proof.
  intros He.
  destruct e as [| j | j ok | j | j text | j]; step_cases He; reflexivity.
Qed.

Lemma run_proxyUrls (es : list Event) : forall s s',
  run s es = Some s' -> proxyUrls s' = proxyUrls s.
Proof.
  induction es as [|e es IH]; intros s s'; cbn [run].
  - by intros [= <-].
  - destruct (step s e) as [s1|] eqn:He; [| discriminate].
    intros Hr. rewrite (IH _ _ Hr). by eapply step_proxyUrls.
Qed.

Lemma onFailure_only (s : Race) (i : nat) : OnlyFailures s -> OnlyFailures (onFailure i s).
Proof.
  intros (Hs & Hlt & Hge). unfold onFailure. rewrite Hs. cbn [negb].
  rewrite andb_true_r.
  destruct (Nat.eqb_spec (S (failures s)) (length (proxyUrls s))) as [Hn|Hn].
  - split; [done |]. cbn. split; [lia |]. intros _. rewrite Hlt by lia. reflexivity.
  - split; [done |]. cbn. split; intros H; [apply Hlt | apply Hge]; lia.
Qed.

Lemma step_only (s : Race) (e : Event) (s' : Race) :
  isBody e = false -> isDeadline e = false ->
  OnlyFailures s -> step s e = Some s' -> OnlyFailures s'.
Proof.
  intros Hb Hd HO He. pose proof HO as (Hs & Hlt & Hge).
  destruct e as [| j | j ok | j | j text | j]; try discriminate; cbn [step] in He;
    repeat match type of He with
           | context [match ?x with _ => _ end] => destruct x eqn:?; try discriminate
           end;
    injection He as <-; try (by apply onFailure_only); try done.
Qed.

Lemma run_only (es : list Event) : forall s s',
  (forall e, In e es -> isBody e = false /\ isDeadline e = false) ->
  OnlyFailures s -> run s es = Some s' -> OnlyFailures s'.
Proof.
  induction es as [|e es IH]; intros s s' Hes HO; cbn [run].
  - by intros [= <-].
  - destruct (step s e) as [s1|] eqn:He; [| discriminate].
    apply IH; [intros e' He'; apply Hes; by right |].
    destruct (Hes e (or_introl eq_refl)). by eapply step_only.
Qed.

(** C2: in a race of N >= 2 routes, once a route delivers the body of a 2xx
    response the promise is resolved with that body, and it stays so after
    every callback that runs later, the failures of the other routes
    included: one outcome is observable. *)
Theorem race_first_success_wins
  (urls : list string) (pre post : list Event) (k : nat) (text : string) (s : Race) :
  (2 <= length urls)%nat ->
  run (start urls) (pre ++ Body k text :: post)%list = Some s ->
  promise s = Some (Resolved text) /\
  forall mid rest, post = (mid ++ rest)%list ->
    exists s1, run (start urls) (pre ++ Body k text :: mid)%list = Some s1 /\
               promise s1 = Some (Resolved text).
Proof.
  intros _ Hrun.
  assert (Hgen : forall tail s',
             run (start urls) (pre ++ Body k text :: tail)%list = Some s' ->
             promise s' = Some (Resolved text)).
  { intros tail s' H. apply run_app in H as (s1 & H1 & H2). cbn [run] in H2.
    destruct (step s1 (Body k text)) as [s2|] eqn:He; [| discriminate].
    pose proof (run_inv _ _ _ (start_inv urls) H1) as HI.
    eapply run_promise; [exact H2 |].
    cbn [step] in He. destruct (routes s1 !! k) as [[]|] eqn:Hk; try discriminate.
    destruct (isAborted k s1) eqn:Hab; try discriminate. injection He as <-.
    destruct (undecided s1 k Reading HI Hk ltac:(auto) Hab) as [Hs Hp].
    unfold onBody. rewrite Hs. cbn. by rewrite Hp. }
  split; [by apply (Hgen post) |].
  intros mid rest ->.
  replace (pre ++ Body k text :: mid ++ rest)%list
    with ((pre ++ Body k text :: mid) ++ rest)%list in Hrun
    by (rewrite <- app_assoc; reflexivity).
  apply run_app in Hrun as (s1 & H1 & _). exists s1. split; [done |]. by apply (Hgen mid).
Qed.

(** C4: in a race of N routes, when all N have failed and neither a success
    nor the deadline came first, the promise is rejected with the
    all-routes-failed error; when the deadline fires, which it does only
    while no route has succeeded, every controller is aborted and the promise
    is rejected with the timeout error; and a settled promise never changes,
    so the outcome is one of the two and never both. *)
Theorem race_failure_outcomes (urls : list string) :
  (1 <= length urls)%nat ->
  (forall es s,
     run (start urls) es = Some s ->
     (forall e, In e es -> isBody e = false /\ isDeadline e = false) ->
     failures s = length urls ->
     promise s = Some (Rejected AllRoutesFailedError)) /\
  (forall pre post s,
     run (start urls) (pre ++ Deadline :: post)%list = Some s ->
     promise s = Some (Rejected TimeoutError) /\
     forall i, (i < length urls)%nat -> aborted s !! i = Some true) /\
  (forall es es' s s' o,
     run (start urls) es = Some s -> run s es' = Some s' ->
     promise s = Some o -> promise s' = Some o).
Proof.
  intros Hn. split; [| split].
  - intros es s Hrun Hes Hf.
    assert (HO : OnlyFailures (start urls)).
    { split; [done |]. cbn. split; [done | lia]. }
    destruct (run_only _ _ _ Hes HO Hrun) as (_ & _ & Hge).
    pose proof (run_proxyUrls _ _ _ Hrun) as Hu. cbn in Hu.
    apply Hge. rewrite Hu. lia.
  - intros pre post s H. apply run_app in H as (s1 & H1 & H2). cbn [run] in H2.
    destruct (step s1 Deadline) as [s2|] eqn:He; [| discriminate].
    pose proof (run_inv _ _ _ (start_inv urls) H1) as HI.
    cbn [step] in He. destruct (globalTimer s1) eqn:Ht; try discriminate.
    injection He as <-. destruct (inv_armed s1 HI Ht) as [Hs Hp].
    split.
    + eapply run_promise; [exact H2 |].
      unfold onDeadline. rewrite Hs. cbn. by rewrite Hp.
    + intros i Hi. eapply run_aborted; [exact H2 |].
      unfold onDeadline. rewrite Hs. cbn. rewrite list_lookup_fmap.
      pose proof (run_proxyUrls _ _ _ H1) as Hu. cbn in Hu.
      destruct (aborted s1 !! i) eqn:Ha; [done |].
      apply lookup_ge_None in Ha. rewrite (inv_aborted s1 HI), Hu in Ha. lia.
  - intros es es' s s' o _ Hr Hp. by eapply run_promise.
Qed.

End Race.

Lemma race_first_success_wins_witness :
  (2 <= length Demo.urls)%nat /\
  FetchRacer.run (FetchRacer.start Demo.urls)
    (Demo.beforeSuccess ++ FetchRacer.Body 1 "<html></html>" :: Demo.afterSuccess)%list
    = Some Demo.raceWon /\
  FetchRacer.promise Demo.raceWon = Some (FetchRacer.Resolved "<html></html>").
Proof.
  split; [cbn; lia |]. split; [reflexivity |].
  apply (race_first_success_wins Demo.urls Demo.beforeSuccess Demo.afterSuccess
           1 "<html></html>" Demo.raceWon); [cbn; lia | reflexivity].
Defined.

Lemma race_failure_outcomes_witness :
  (1 <= length Demo.urls)%nat /\
  FetchRacer.promise <$> FetchRacer.run (FetchRacer.start Demo.urls) Demo.allFail
    = Some (Some (FetchRacer.Rejected FetchRacer.AllRoutesFailedError)) /\
  FetchRacer.promise <$>
    FetchRacer.run (FetchRacer.start Demo.urls)
      (Demo.beforeDeadline ++ FetchRacer.Deadline :: Demo.afterDeadline)%list
    = Some (Some (FetchRacer.Rejected FetchRacer.TimeoutError)).
Proof.
  split; [cbn; lia |].
  destruct (race_failure_outcomes Demo.urls ltac:(cbn; lia)) as (Hall & Htime & _).
  split.
  - destruct (FetchRacer.run (FetchRacer.start Demo.urls) Demo.allFail)
      as [s|] eqn:Hrun; [| vm_compute in Hrun; discriminate].
    cbn [fmap option_fmap option_map]. f_equal. apply (Hall _ s Hrun).
    + intros e He. cbn in He.
      repeat (destruct He as [<- | He]; [split; reflexivity |]). destruct He.
    + vm_compute in Hrun. injection Hrun as <-. reflexivity.
  - destruct (FetchRacer.run (FetchRacer.start Demo.urls)
                (Demo.beforeDeadline ++ FetchRacer.Deadline :: Demo.afterDeadline)%list)
      as [s|] eqn:Hrun; [| vm_compute in Hrun; discriminate].
    cbn [fmap option_fmap option_map]. f_equal.
    apply (Htime Demo.beforeDeadline Demo.afterDeadline s Hrun).
Defined.

(** ** getReadings and the cache *)

Section ServiceFacts.
Import Js Service.
Variable env : Env.

Lemma viaProxies_failure c items url dateStr date e st' :
  viaProxies env c items url dateStr date = (inl e, st') -> cache st' = c.
Proof.
  unfold viaProxies.
  destruct (fetchViaProxies env url timeout) as [html | proxyError].
  - destruct (parseReadings env html date); intros [= _ <-]; reflexivity.
  - intros [= _ <-]; reflexivity.
Qed.

Lemma fetchAndStore_failure c items dateStr date e st' :
  fetchAndStore env c items dateStr date = (inl e, st') -> cache st' = c.
Proof.
  unfold fetchAndStore.
  destruct (match fetchUrl env _ with inr html => _ | inl e0 => _ end) as [err | r].
  - destruct (hasWindow env).
    + apply viaProxies_failure.
    + intros [= _ <-]; reflexivity.
  - discriminate.
Qed.

Lemma lookupOrFetch_failure st dateStr date e st' :
  lookupOrFetch env st dateStr date = (inl e, st') -> cache st' = cache st.
Proof.
  unfold lookupOrFetch. destruct (cache st !! dateStr); [discriminate |].
  destruct (readFromPersistentCache env (storage st) dateStr) as [persisted items].
  destruct (truthy persisted); [discriminate |]. apply fetchAndStore_failure.
Qed.

(** C9: whenever [getReadings] fails (the date is rejected, the fetch fails,
    or the page cannot be parsed) the in-memory cache after the call is the
    cache before it, for every key: an entry is stored only on the way to a
    successful return. *)
Theorem getReadings_failure_keeps_cache
  (st : State) (date : Arg) (e : JsError) (st' : State) :
  getReadings env st date = (inl e, st') -> cache st' = cache st.
Proof.
  unfold getReadings. destruct date as [dateStr | d |].
  - destruct (DateCodec.parseDateString dateStr) as [err | d].
    + intros [= _ <-]; reflexivity.
    + apply lookupOrFetch_failure.
  - apply lookupOrFetch_failure.
  - intros [= _ <-]; reflexivity.
Qed.

(** A successful call leaves the cache as it was or with the returned value
    stored under one key. *)
Lemma getReadings_success_cache st date v st' :
  getReadings env st date = (inr v, st') ->
  cache st' = cache st \/ exists key, cache st' = <[key := v]> (cache st).
Proof.
  assert (Hl : forall dateStr d, lookupOrFetch env st dateStr d = (inr v, st') ->
               cache st' = cache st \/ exists key, cache st' = <[key := v]> (cache st)).
  { intros dateStr d. unfold lookupOrFetch.
    destruct (cache st !! dateStr); [intros [= _ <-]; by left |].
    destruct (readFromPersistentCache env (storage st) dateStr) as [persisted items].
    destruct (truthy persisted); [intros [= <- <-]; right; by exists dateStr |].
    unfold fetchAndStore.
    destruct (match fetchUrl env _ with inr html => _ | inl e0 => _ end) as [err | r].
    - destruct (hasWindow env); [| discriminate]. unfold viaProxies.
      destruct (fetchViaProxies env _ timeout) as [html | proxyError]; [| discriminate].
      destruct (parseReadings env html d); [discriminate |].
      intros [= <- <-]; right; by exists dateStr.
    - intros [= <- <-]; right; by exists dateStr. }
  unfold getReadings. destruct date as [dateStr | d |]; [| apply Hl | discriminate].
  destruct (DateCodec.parseDateString dateStr); [discriminate | apply Hl].
Qed.

Lemma storageKey_not_probe key : storageKey key <> probeKey.
Proof. unfold storageKey, probeKey. discriminate. Qed.

(** The probe of [storageAvailable] leaves the cached entries alone. *)
Lemma storageAvailable_lookup items key :
  snd (storageAvailable env items) !! storageKey key = items !! storageKey key.
Proof.
  unfold storageAvailable.
  destruct (hasWindow env); cbn [negb]; [| reflexivity].
  destruct (localStorage env); try reflexivity.
  destruct (setItemOk env items probeKey "1"); [| reflexivity].
  cbn [negb snd]. pose proof (storageKey_not_probe key).
  rewrite lookup_delete_ne, lookup_insert_ne by done. reflexivity.
Qed.

Lemma readFromPersistentCache_unreadable items key :
  Spec.Unreadable env items key -> fst (readFromPersistentCache env items key) = VNull.
Proof.
  intros Hu. unfold readFromPersistentCache.
  pose proof (storageAvailable_lookup items key) as Hl.
  assert (Hok : fst (storageAvailable env items) = false \/
                getItemOk env (storageKey key) = false \/
                exists raw, items !! storageKey key = Some raw /\
                            JSON_parse env raw = None).
  { destruct Hu as [H | H | raw Hraw Hjson]; eauto. }
  destruct (storageAvailable env items) as [ok items1]. cbn [fst snd] in Hl, Hok.
  destruct ok; cbn [negb]; [| reflexivity].
  destruct (getItemOk env (storageKey key)); cbn [negb]; [| reflexivity].
  destruct Hok as [H | [H | (raw & Hraw & Hjson)]]; try discriminate.
  rewrite Hl, Hraw. destruct (JsString.truthy raw); [| reflexivity].
  by rewrite Hjson.
Qed.

(** C10: when the durable entry of a key cannot be read or is not valid
    serialized data, [readFromPersistentCache] returns null and [getReadings]
    goes on exactly as on a miss of both tiers: its result is the result of
    the fetch, so the unreadable entry is never the error the caller sees. *)
Theorem unreadable_entry_is_a_miss (st : State) (key : string) (d : JsDate.t) :
  cache st !! key = None ->
  Spec.Unreadable env (storage st) key ->
  fst (readFromPersistentCache env (storage st) key) = VNull /\
  lookupOrFetch env st key d =
    fetchAndStore env (cache st)
      (snd (readFromPersistentCache env (storage st) key)) key d /\
  (DateCodec.parseDateString key = inr d ->
   getReadings env st (ArgString key) =
     fetchAndStore env (cache st)
       (snd (readFromPersistentCache env (storage st) key)) key d).
Proof.
  intros Hc Hu. pose proof (readFromPersistentCache_unreadable _ _ Hu) as Hr.
  assert (Hl : lookupOrFetch env st key d =
               fetchAndStore env (cache st)
                 (snd (readFromPersistentCache env (storage st) key)) key d).
  { unfold lookupOrFetch. rewrite Hc.
    destruct (readFromPersistentCache env (storage st) key) as [persisted items].
    cbn [fst snd] in *. by rewrite Hr. }
  split; [done |]. split; [done |].
  intros Hp. unfold getReadings. by rewrite Hp.
Qed.

(** After a direct fetch the result goes to the in-memory tier only. *)
Lemma fetchAndStore_direct c items dateStr date html r :
  fetchUrl env (baseUrl ++ "/" ++ dateStr ++ ".cfm") = inr html ->
  parseReadings env html date = inr r ->
  fetchAndStore env c items dateStr date =
    (inr (toJs r), {| cache := <[dateStr := toJs r]> c; storage := items |}).
Proof. intros Hf Hp. unfold fetchAndStore. by rewrite Hf, Hp. Qed.

(** After a race the result goes to both tiers, and whatever happens in the
    durable write the call returns the result. *)
Lemma fetchAndStore_proxies c items dateStr date e html r :
  fetchUrl env (baseUrl ++ "/" ++ dateStr ++ ".cfm") = inl e ->
  hasWindow env = true ->
  fetchViaProxies env (baseUrl ++ "/" ++ dateStr ++ ".cfm") timeout
    = FetchRacer.Resolved html ->
  parseReadings env html date = inr r ->
  fetchAndStore env c items dateStr date =
    (inr (toJs r),
     {| cache := <[dateStr := toJs r]> c;
        storage := writeToPersistentCache env items dateStr (toJs r) |}).
Proof.
  intros Hf Hw Hx Hp. unfold fetchAndStore, viaProxies. by rewrite Hf, Hw, Hx, Hp.
Qed.

End ServiceFacts.

Lemma getReadings_failure_keeps_cache_witness :
  Service.getReadings Demo.node Demo.emptyState (Service.ArgString "121525") =
    (inl (Js.Error "HTTP 404"), Demo.emptyState) /\
  Service.cache Demo.emptyState = Service.cache Demo.emptyState.
Proof.
  split; [reflexivity |].
  apply (getReadings_failure_keeps_cache Demo.node Demo.emptyState
           (Service.ArgString "121525") (Js.Error "HTTP 404") Demo.emptyState).
  reflexivity.
Defined.

Lemma unreadable_entry_is_a_miss_witness :
  Service.cache Demo.corruptState !! "121525" = None /\
  Spec.Unreadable Demo.browser (Service.storage Demo.corruptState) "121525" /\
  fst (Service.readFromPersistentCache Demo.browser
         (Service.storage Demo.corruptState) "121525") = Js.VNull /\
  exists v st',
    Service.getReadings Demo.browser Demo.corruptState (Service.ArgString "121525")
      = (inr v, st').
Proof.
  assert (Hu : Spec.Unreadable Demo.browser (Service.storage Demo.corruptState) "121525").
  { apply (Spec.NotJson _ _ _ "{oops"); reflexivity. }
  split; [reflexivity |]. split; [exact Hu |].
  destruct (unreadable_entry_is_a_miss Demo.browser Demo.corruptState "121525"
              (JsDate.make (Some 2025) (Some 11) (Some 15)) eq_refl Hu)
    as (Hnull & _ & Hget).
  split; [exact Hnull |].
  rewrite (Hget ltac:(vm_compute; reflexivity)).
  eexists _, _. vm_compute. reflexivity.
Defined.

(** C5: a call that misses both tiers and then fetches and parses with
    success should store the result in both tiers. In a browser whose storage
    works, the call served by the direct fetch returns the result and stores
    it in the in-memory tier, and leaves the durable tier without an entry
    for the key; the same call served by the race writes the durable entry. *)
Theorem direct_fetch_skips_durable_tier :
  (exists v st',
     Service.getReadings Demo.browser Demo.emptyState (Service.ArgString "121525")
       = (inr v, st')
     /\ Service.cache st' !! "121525" = Some v
     /\ Service.storage st' !! Service.storageKey "121525" = None) /\
  (exists v st',
     Service.getReadings Demo.blockedBrowser Demo.emptyState (Service.ArgString "121525")
       = (inr v, st')
     /\ Service.cache st' !! "121525" = Some v
     /\ Service.storage st' !! Service.storageKey "121525" = Some "{}").
Proof.
  split; eexists _, _; (split; [vm_compute; reflexivity |]); split; vm_compute; reflexivity.
Qed.

(** * Further properties *)


(** ** More on the date codec *)

(** The key of a time value of the years 2000..2099 decodes to the start of
    its day. *)
Lemma parse_format_any_time (t : Z) :
  2000 <= JsDate.YearFromTime t <= 2099 ->
  DateCodec.parseDateString (DateCodec.formatDateForUrl (Some t)) =
  inr (Some (JsDate.MakeDate (JsDate.Day t) (JsDate.MakeTime 0 0 0 0))).
Proof.
  intros Hy.
  pose proof (MonthFromTime_range t) as Hm. pose proof (DateFromTime_range t) as Hd.
  unfold DateCodec.formatDateForUrl.
  cbn [JsDate.getMonth JsDate.getDate JsDate.getFullYear JsDate.numberToString
       fmap option_fmap option_map].
  destruct (twoDigitsOf_inv _ _ (padStart_two (Z.succ (JsDate.MonthFromTime t)) ltac:(lia)))
    as (c1 & c2 & -> & H1 & H2 & Hmm).
  destruct (twoDigitsOf_inv _ _ (padStart_two (JsDate.DateFromTime t) ltac:(lia)))
    as (c3 & c4 & -> & H3 & H4 & Hdd).
  destruct (twoDigitsOf_inv _ _ (slice_year (JsDate.YearFromTime t) ltac:(lia)))
    as (c5 & c6 & -> & H5 & H6 & Hyy).
  change (String c1 (String c2 "") ++ String c3 (String c4 "") ++ String c5 (String c6 ""))
    with (String c1 (String c2 (String c3 (String c4 (String c5 (String c6 "")))))).
  rewrite parseDateString_digits by done. cbv zeta.
  rewrite Hmm, Hdd, Hyy.
  replace (2000 + (JsDate.YearFromTime t - 2000)) with (JsDate.YearFromTime t) by lia.
  replace (Z.succ (JsDate.MonthFromTime t) - 1) with (JsDate.MonthFromTime t) by lia.
  by rewrite MakeDay_getters.
Qed.



(** The key depends on the day only. *)
Lemma format_day_only (t1 t2 : Z) :
  JsDate.Day t1 = JsDate.Day t2 ->
  DateCodec.formatDateForUrl (Some t1) = DateCodec.formatDateForUrl (Some t2).
Proof.
  intros Hd. unfold DateCodec.formatDateForUrl.
  cbn [JsDate.getMonth JsDate.getDate JsDate.getFullYear fmap option_fmap option_map].
  unfold JsDate.MonthFromTime, JsDate.DateFromTime, JsDate.MonthFromTime, JsDate.InLeapYear,
    JsDate.DayWithinYear, JsDate.YearFromTime. by rewrite Hd.
Qed.

(** X5: two dates of the years 2000..2099 get the same key exactly when they
    fall on the same day: the key forgets the time of day and nothing else. *)
Theorem keys_distinguish_days (t1 t2 : Z) :
  2000 <= JsDate.YearFromTime t1 <= 2099 ->
  2000 <= JsDate.YearFromTime t2 <= 2099 ->
  DateCodec.formatDateForUrl (Some t1) = DateCodec.formatDateForUrl (Some t2) <->
  JsDate.Day t1 = JsDate.Day t2.
Proof.
  intros H1 H2. split; [| apply format_day_only].
  intros Hk. pose proof (parse_format_any_time t1 H1) as P1.
  pose proof (parse_format_any_time t2 H2) as P2.
  rewrite Hk, P2 in P1. injection P1 as P1.
  rewrite <- (Day_MakeDate (JsDate.Day t1)), <- (Day_MakeDate (JsDate.Day t2)).
  by rewrite P1.
Qed.

Section ValidKeys.
Import JsDate.

Ltac ltb_cases :=
  repeat match goal with
         | |- context [?a <? ?b] => destruct (Z.ltb_spec a b); try lia
         end.

(** The three getters on an existing day of the calendar. *)
Lemma existing_day_fields (y mm dd : Z) :
  1 <= mm <= 12 -> 1 <= dd <= Spec.daysInMonth y mm ->
  let t := MakeDate (MakeDay y (mm - 1) dd) (MakeTime 0 0 0 0) in
  YearFromTime t = y /\ MonthFromTime t = mm - 1 /\ DateFromTime t = dd.
Proof.
  intros Hm Hd t.
  assert (HD : Day t = MakeDay y (mm - 1) dd) by apply Day_MakeDate.
  assert (HY : YearFromTime t = y)
    by (unfold YearFromTime; rewrite HD; by apply existing_day_year).
  assert (HW : DayWithinYear t = monthStart (mm - 1) (DaysInYear y) + dd - 1).
  { unfold DayWithinYear. rewrite HY, HD, MakeDay_in_year by lia. lia. }
  split; [done |].
  assert (Hc : mm = 1 \/ mm = 2 \/ mm = 3 \/ mm = 4 \/ mm = 5 \/ mm = 6 \/ mm = 7 \/
               mm = 8 \/ mm = 9 \/ mm = 10 \/ mm = 11 \/ mm = 12) by lia.
  unfold DateFromTime, MonthFromTime, InLeapYear. rewrite HW, HY.
  unfold Spec.daysInMonth, monthStart in *.
  destruct (DaysInYear_cases y) as [Hy | Hy]; rewrite Hy in *;
    repeat (destruct Hc as [-> | Hc]); try subst mm;
      match goal with
      | |- context [match ?a - 1 with _ => _ end] =>
          let v := eval vm_compute in (a - 1) in change (a - 1) with v
      end; cbn [Z.eqb Pos.eqb] in *; cbv zeta iota beta; ltb_cases;
      cbv iota beta; split; lia.
Qed.

End ValidKeys.

Lemma padStart_digits (c1 c2 : ascii) :
  In c1 Tools.digitChars -> In c2 Tools.digitChars ->
  JsString.padStart 2 "0"
    (JsString.ofInt (10 * JsString.digitValue c1 + JsString.digitValue c2)) =
  String c1 (String c2 "").
Proof.
  intros H1 H2. cbn in H1, H2.
  repeat (destruct H1 as [<- | H1];
          [repeat (destruct H2 as [<- | H2]; [reflexivity |]); destruct H2 |]).
  destruct H1.
Qed.

Lemma slice_year_digits (c1 c2 : ascii) :
  In c1 Tools.digitChars -> In c2 Tools.digitChars ->
  JsString.slice (-2)
    (JsString.ofInt (2000 + (10 * JsString.digitValue c1 + JsString.digitValue c2))) =
  String c1 (String c2 "").
Proof.
  intros H1 H2. cbn in H1, H2.
  repeat (destruct H1 as [<- | H1];
          [repeat (destruct H2 as [<- | H2]; [reflexivity |]); destruct H2 |]).
  destruct H1.
Qed.

(** A valid key, its digits and its three fields. *)
Lemma validKey_inv (key : string) :
  Spec.validKey key = true ->
  exists c1 c2 c3 c4 c5 c6,
    key = String c1 (String c2 (String c3 (String c4 (String c5 (String c6 ""))))) /\
    In c1 Tools.digitChars /\ In c2 Tools.digitChars /\ In c3 Tools.digitChars /\
    In c4 Tools.digitChars /\ In c5 Tools.digitChars /\ In c6 Tools.digitChars /\
    let mm := 10 * JsString.digitValue c1 + JsString.digitValue c2 in
    let dd := 10 * JsString.digitValue c3 + JsString.digitValue c4 in
    let yy := 10 * JsString.digitValue c5 + JsString.digitValue c6 in
    1 <= mm <= 12 /\ 1 <= dd <= Spec.daysInMonth (2000 + yy) mm.
Proof.
  unfold Spec.validKey. intros H. apply andb_true_iff in H as [H6 Hv].
  destruct (sixDigits_inv key H6)
    as (c1 & c2 & c3 & c4 & c5 & c6 & -> & H1 & H2 & H3 & H4 & H5 & H6').
  change (JsString.substring 0 2 _) with (String c1 (String c2 "")) in Hv.
  change (JsString.substring 2 4 _) with (String c3 (String c4 "")) in Hv.
  change (JsString.substring 4 6 _) with (String c5 (String c6 "")) in Hv.
  rewrite !parseInt_two in Hv by done.
  repeat (apply andb_true_iff in Hv as [Hv ?]).
  exists c1, c2, c3, c4, c5, c6. repeat split; try done; lia.
Qed.





(** X4: [parseDateString] fails exactly on the strings that are not six
    digits, always with the format error; every string of six digits is
    decoded to a valid date, and the invalid-date error is never raised. *)
Theorem parseDateString_only_format_errors (s : string) :
  (DateCodec.sixDigits s = false <->
   DateCodec.parseDateString s = inl DateCodec.FormatError) /\
  (DateCodec.sixDigits s = true <->
   exists t, DateCodec.parseDateString s = inr (Some t)) /\
  DateCodec.parseDateString s <> inl DateCodec.InvalidDateError.
Proof.
  destruct (DateCodec.sixDigits s) eqn:H6.
  - destruct (parseDateString_accepts_all_digits s H6) as [t Ht]. rewrite Ht.
    repeat split; try discriminate; eauto.
  - rewrite (parseDateString_format s H6).
    repeat split; try discriminate; try done. intros [t Ht]; discriminate.
Qed.

(** ** The convenience methods *)

Lemma MakeDay_shift (y m dt n : Z) :
  JsDate.MakeDay y m (dt + n) = JsDate.MakeDay y m dt + n.
Proof. unfold JsDate.MakeDay. lia. Qed.

(** Setting the day of the month to the current one plus [n] moves the time
    value by [n] whole days. *)
Lemma setDate_shift (t n : Z) :
  Helpers.setDate (Some t) ((fun x => x + n) <$> JsDate.getDate (Some t)) =
  JsDate.TimeClip (t + n * JsDate.msPerDay).
Proof.
  unfold Helpers.setDate, Helpers.TimeWithinDay.
  cbn [JsDate.getDate fmap option_fmap option_map mbind option_bind].
  rewrite MakeDay_shift, MakeDay_getters. f_equal.
  unfold JsDate.MakeDate, JsDate.Day, JsDate.msPerDay. Z.div_mod_to_equations. lia.
Qed.





(** ** More on the classification of titles *)

(** X8: the season is always one of the seven enumerated names, and it is
    "Unknown" exactly for the empty title. *)
Theorem extractSeason_enumerated (title : string) :
  In (PageParser.extractSeason title) Notions.seasonNames /\
  (PageParser.extractSeason title = "Unknown" <-> title = "").
Proof.
  unfold PageParser.extractSeason. destruct title as [|c r].
  - split; [cbn; tauto | done].
  - cbn [JsString.truthy negb].
    repeat match goal with
           | |- context [JsString.includes ?s ?k] =>
               destruct (JsString.includes s k);
                 [split; [cbn; tauto | split; discriminate] |]
           end.
    split; [cbn; tauto | split; discriminate].
Qed.

Lemma includes_toLowerCase (s k : string) :
  JsString.includes s k = true ->
  JsString.includes (JsString.toLowerCase s) (JsString.toLowerCase k) = true.
Proof.
  rewrite !includes_Occurs. intros (a & b & ->).
  exists (JsString.toLowerCase a), (JsString.toLowerCase b).
  by rewrite !toLowerCase_app.
Qed.

(** X9: a title whose season is Christmas, Easter or Pentecost is always
    ranked Solemnity, ordinary weekdays of those seasons included. *)
Theorem solemn_seasons_rank_solemnity (title : string) :
  PageParser.extractSeason title = "Christmas" \/
  PageParser.extractSeason title = "Easter" \/
  PageParser.extractSeason title = "Pentecost" ->
  PageParser.extractLiturgicalRank title = "Solemnity".
Proof.
  intros Hs.
  assert (Hk : JsString.includes title "Christmas" = true \/
               JsString.includes title "Easter" = true \/
               JsString.includes title "Pentecost" = true).
  { revert Hs. unfold PageParser.extractSeason.
    destruct (JsString.truthy title); cbn [negb];
      [| intros [H | [H | H]]; discriminate].
    repeat match goal with
           | |- context [if JsString.includes ?s ?k then _ else _] =>
               destruct (JsString.includes s k) eqn:?
           end; intros [H | [H | H]]; try discriminate; auto. }
  assert (Hl : JsString.includes (JsString.toLowerCase title) "christmas" = true \/
               JsString.includes (JsString.toLowerCase title) "easter" = true \/
               JsString.includes (JsString.toLowerCase title) "pentecost" = true).
  { destruct Hk as [H | [H | H]]; apply includes_toLowerCase in H; auto. }
  unfold PageParser.extractLiturgicalRank.
  destruct title as [|c r]; [destruct Hk as [H | [H | H]]; discriminate |].
  cbn [JsString.truthy negb]. cbv zeta.
  destruct Hl as [H | [H | H]]; rewrite H; rewrite ?orb_true_r; reflexivity.
Qed.

Lemma solemn_seasons_rank_solemnity_witness :
  (PageParser.extractSeason "Tuesday of the Second Week of Easter" = "Christmas" \/
   PageParser.extractSeason "Tuesday of the Second Week of Easter" = "Easter" \/
   PageParser.extractSeason "Tuesday of the Second Week of Easter" = "Pentecost") /\
  PageParser.extractLiturgicalRank "Tuesday of the Second Week of Easter" = "Solemnity".
Proof.
  split; [right; left; reflexivity |].
  apply (solemn_seasons_rank_solemnity "Tuesday of the Second Week of Easter").
  right; left; reflexivity.
Defined.

(** ** The lectionary number *)

Lemma dropWhile_length (p : ascii -> bool) (s : string) :
  (String.length (JsString.dropWhile p s) <= String.length s)%nat.
Proof.
  induction s as [|c r IH]; cbn [JsString.dropWhile String.length]; [lia |].
  destruct (p c); cbn [String.length]; lia.
Qed.

(** The characters [dropWhile] removes all satisfy the test. *)
Lemma taken_all (p : ascii -> bool) (s : string) :
  JsString.all p
    (String.substring 0
       (String.length s - String.length (JsString.dropWhile p s)) s) = true.
Proof.
  induction s as [|c r IH]; [reflexivity |].
  cbn [JsString.dropWhile]. destruct (p c) eqn:Hc.
  - pose proof (dropWhile_length p r).
    replace (String.length (String c r) - String.length (JsString.dropWhile p r))%nat
      with (S (String.length r - String.length (JsString.dropWhile p r)))
      by (cbn [String.length]; lia).
    cbn [String.substring JsString.all]. by rewrite Hc, IH.
  - by rewrite Nat.sub_diag.
Qed.

Lemma lectionaryHere_digits (s d : string) :
  PageParser.lectionaryHere s = Some d ->
  JsString.all JsString.isDigit d = true /\ d <> "".
Proof.
  unfold PageParser.lectionaryHere. destruct (String.prefix "Lectionary:" s); [| discriminate].
  set (rest := JsString.dropWhile JsString.isWhiteSpace _).
  destruct (JsString.truthy _) eqn:Ht; [| discriminate].
  intros [= <-]. split; [apply taken_all |]. intros He. by rewrite He in Ht.
Qed.

Lemma lectionaryMatch_digits (s d : string) :
  PageParser.lectionaryMatch s = Some d ->
  JsString.all JsString.isDigit d = true /\ d <> "".
Proof.
  induction s as [|c r IH]; cbn [PageParser.lectionaryMatch].
  - destruct (PageParser.lectionaryHere "") eqn:Hh; [| discriminate].
    intros [= <-]. exact (lectionaryHere_digits "" _ Hh).
  - destruct (PageParser.lectionaryHere (String c r)) eqn:Hh; [| exact IH].
    intros [= <-]. exact (lectionaryHere_digits (String c r) _ Hh).
Qed.

(** X10: the lectionary number is a string of decimal digits, possibly
    empty, for every document. *)
Theorem extractLectionary_digits (doc : Dom.Elem) :
  JsString.all JsString.isDigit (PageParser.extractLectionary doc) = true.
Proof.
  unfold PageParser.extractLectionary.
  destruct (Dom.querySelector _ doc) as [lectElement |]; [| reflexivity].
  destruct (PageParser.lectionaryMatch (Dom.textContent lectElement)) as [d |] eqn:Hm;
    [| reflexivity].
  cbn [default]. exact (proj1 (lectionaryMatch_digits _ _ Hm)).
Qed.

Lemma dropWhile_app_all (p : ascii -> bool) (a b : string) :
  JsString.all p a = true -> JsString.dropWhile p (a ++ b) = JsString.dropWhile p b.
Proof.
  induction a as [|c a IH]; [reflexivity |].
  cbn [JsString.all]. intros H. apply andb_true_iff in H as [Hc Ha].
  rewrite append_cons. cbn [JsString.dropWhile]. by rewrite Hc, IH.
Qed.

Lemma string_length_app (a b : string) :
  String.length (a ++ b) = (String.length a + String.length b)%nat.
Proof. induction a as [|c a IH]; [reflexivity |]. rewrite append_cons. cbn. by rewrite IH. Qed.

Lemma substring_app_prefix (a b : string) :
  String.substring 0 (String.length a) (a ++ b) = a.
Proof.
  induction a as [|c a IH]; [by destruct b |].
  rewrite append_cons. cbn [String.length String.substring]. by rewrite IH.
Qed.

Lemma substring_app_suffix (a b : string) :
  String.substring (String.length a) (String.length b) (a ++ b) = b.
Proof.
  induction a as [|c a IH].
  - rewrite append_nil. cbn [String.length]. induction b as [|d b IHb]; [reflexivity |].
    cbn [String.length String.substring]. by rewrite IHb.
  - rewrite append_cons. cbn [String.length String.substring]. exact IH.
Qed.

Lemma digit_not_space (c : ascii) :
  JsString.isDigit c = true -> JsString.isWhiteSpace c = false.
Proof.
  intros H. apply isDigit_inv in H. cbn in H.
  repeat (destruct H as [<- | H]; [reflexivity |]). destruct H.
Qed.

(** After the label, white space is skipped and the digits that follow are
    the match. *)
Lemma lectionaryHere_label (ws ds rest : string) :
  JsString.all JsString.isWhiteSpace ws = true ->
  JsString.all JsString.isDigit ds = true -> ds <> "" ->
  JsString.dropWhile JsString.isDigit rest = rest ->
  PageParser.lectionaryHere ("Lectionary:" ++ ws ++ ds ++ rest) = Some ds.
Proof.
  intros Hws Hds Hne Hrest. unfold PageParser.lectionaryHere.
  assert (Hp : String.prefix "Lectionary:" ("Lectionary:" ++ ws ++ ds ++ rest) = true)
    by (apply prefix_app; eauto).
  rewrite Hp.
  assert (Hsub : String.substring 11
            (String.length ("Lectionary:" ++ ws ++ ds ++ rest) - 11)
            ("Lectionary:" ++ ws ++ ds ++ rest) = ws ++ ds ++ rest).
  { rewrite string_length_app.
    change (String.length "Lectionary:") with 11%nat.
    replace (11 + String.length (ws ++ ds ++ rest) - 11)%nat
      with (String.length (ws ++ ds ++ rest)) by lia.
    apply (substring_app_suffix "Lectionary:"). }
  rewrite Hsub, dropWhile_app_all by done.
  assert (Hd0 : JsString.dropWhile JsString.isWhiteSpace (ds ++ rest) = ds ++ rest).
  { destruct ds as [|d ds']; [done |]. cbn [JsString.all] in Hds.
    apply andb_true_iff in Hds as [Hd _]. rewrite append_cons.
    cbn [JsString.dropWhile]. by rewrite (digit_not_space d Hd). }
  rewrite Hd0, dropWhile_app_all, Hrest by done.
  rewrite string_length_app.
  replace (String.length ds + String.length rest - String.length rest)%nat
    with (String.length ds) by lia.
  rewrite substring_app_prefix. by destruct ds.
Qed.

Lemma lectionaryHere_not_L (c : ascii) (s : string) :
  Ascii.eqb c "L" = false -> PageParser.lectionaryHere (String c s) = None.
Proof.
  intros Hc. unfold PageParser.lectionaryHere.
  change (String.prefix "Lectionary:" (String c s))
    with (if ascii_dec "L" c then String.prefix "ectionary:" s else false).
  destruct (ascii_dec "L" c) as [<- | _]; [discriminate | reflexivity].
Qed.

(** X11: in a text where the label "Lectionary:" is followed by white space
    (possibly none) and a number, and no capital L comes before the label,
    the match is that number, all its digits. *)
Theorem lectionaryMatch_finds_number (before ws ds rest : string) :
  JsString.all (fun c => negb (Ascii.eqb c "L")) before = true ->
  JsString.all JsString.isWhiteSpace ws = true ->
  JsString.all JsString.isDigit ds = true -> ds <> "" ->
  JsString.dropWhile JsString.isDigit rest = rest ->
  PageParser.lectionaryMatch (before ++ "Lectionary:" ++ ws ++ ds ++ rest) = Some ds.
Proof.
  intros Hb Hws Hds Hne Hrest. induction before as [|c before IH].
  - rewrite append_nil.
    pose proof (lectionaryHere_label ws ds rest Hws Hds Hne Hrest) as Hh.
    change ("Lectionary:" ++ ws ++ ds ++ rest)
      with (String "L" ("ectionary:" ++ ws ++ ds ++ rest)) in *.
    cbn [PageParser.lectionaryMatch]. by rewrite Hh.
  - cbn [JsString.all] in Hb. apply andb_true_iff in Hb as [Hc Hb].
    apply negb_true_iff in Hc.
    rewrite append_cons. cbn [PageParser.lectionaryMatch].
    rewrite (lectionaryHere_not_L c _ Hc). by apply IH.
Qed.

Lemma lectionaryMatch_finds_number_witness :
  JsString.all (fun c => negb (Ascii.eqb c "L")) " " = true /\
  JsString.all JsString.isWhiteSpace " " = true /\
  JsString.all JsString.isDigit "187" = true /\
  JsString.dropWhile JsString.isDigit " (A)" = " (A)" /\
  PageParser.lectionaryMatch (" " ++ "Lectionary:" ++ " " ++ "187" ++ " (A)") = Some "187".
Proof.
  repeat (split; [reflexivity |]).
  apply (lectionaryMatch_finds_number " " " " "187" " (A)");
    [reflexivity | reflexivity | reflexivity | discriminate | reflexivity].
Defined.

(** ** The text of a reading *)

Lemma append_nil_r (s : string) : s ++ "" = s.
Proof. induction s as [|c s IH]; [reflexivity |]. by rewrite append_cons, IH. Qed.

Lemma append_assoc (a b c : string) : (a ++ b) ++ c = a ++ b ++ c.
Proof. induction a as [|x a IH]; [reflexivity |]. by rewrite !append_cons, IH. Qed.

Lemma rev_acc (acc s : string) : JsString.rev acc s = JsString.rev "" s ++ acc.
Proof.
  revert acc. induction s as [|c s IH]; intros acc; cbn [JsString.rev]; [reflexivity |].
  rewrite (IH (String c acc)), (IH (String c "")), append_assoc. reflexivity.
Qed.

Lemma rev_app (a b : string) :
  JsString.rev "" (a ++ b) = JsString.rev "" b ++ JsString.rev "" a.
Proof.
  induction a as [|c a IH].
  - by rewrite append_nil, append_nil_r.
  - rewrite append_cons. cbn [JsString.rev].
    rewrite (rev_acc (String c "") (a ++ b)), (rev_acc (String c "") a), IH.
    by rewrite append_assoc.
Qed.

Lemma rev_involutive (s : string) : JsString.rev "" (JsString.rev "" s) = s.
Proof.
  induction s as [|c s IH]; [reflexivity |].
  cbn [JsString.rev]. rewrite (rev_acc (String c "") s), rev_app, IH. reflexivity.
Qed.

(** [dropWhile] removes a prefix whose characters all satisfy the test. *)
Lemma dropWhile_split (p : ascii -> bool) (s : string) :
  exists a, s = a ++ JsString.dropWhile p s /\ JsString.all p a = true.
Proof.
  induction s as [|c s (a & Ha & Hp)]; [by exists "" |].
  cbn [JsString.dropWhile]. destruct (p c) eqn:Hc.
  - exists (String c a). rewrite append_cons, <- Ha. cbn [JsString.all].
    by rewrite Hc, Hp.
  - by exists "".
Qed.

Lemma dropWhile_idem (p : ascii -> bool) (s : string) :
  JsString.dropWhile p (JsString.dropWhile p s) = JsString.dropWhile p s.
Proof.
  induction s as [|c s IH]; [reflexivity |].
  cbn [JsString.dropWhile]. destruct (p c) eqn:Hc; [exact IH |].
  cbn [JsString.dropWhile]. by rewrite Hc.
Qed.

(** A string that [dropWhile] leaves alone keeps this when cut at the end. *)
Lemma dropWhile_fixed_prefix (p : ascii -> bool) (u v : string) :
  JsString.dropWhile p (u ++ v) = u ++ v -> JsString.dropWhile p u = u.
Proof.
  destruct u as [|c u]; [reflexivity |].
  rewrite append_cons. cbn [JsString.dropWhile]. destruct (p c); [| reflexivity].
  intros H. pose proof (dropWhile_length p (u ++ v)) as Hl.
  rewrite H in Hl. cbn [String.length] in Hl. lia.
Qed.


(** [trim] keeps a stretch from the middle of its argument. *)
Lemma trim_infix (s : string) : exists a b, s = a ++ JsString.trim s ++ b.
Proof.
  unfold JsString.trim.
  destruct (dropWhile_split JsString.isWhiteSpace s) as (a & Ha & _).
  set (u := JsString.dropWhile JsString.isWhiteSpace s) in *.
  destruct (dropWhile_split JsString.isWhiteSpace (JsString.rev "" u)) as (x & Hx & _).
  set (w := JsString.dropWhile JsString.isWhiteSpace (JsString.rev "" u)) in *.
  exists a, (JsString.rev "" x).
  rewrite <- rev_app, <- Hx, rev_involutive. exact Ha.
Qed.

Lemma trim_Trimmed (s : string) : Notions.Trimmed (JsString.trim s).
Proof.
  unfold Notions.Trimmed, JsString.trim.
  set (u := JsString.dropWhile JsString.isWhiteSpace s).
  set (w := JsString.dropWhile JsString.isWhiteSpace (JsString.rev "" u)).
  split.
  - destruct (dropWhile_split JsString.isWhiteSpace (JsString.rev "" u)) as (x & Hx & _).
    fold w in Hx.
    apply (dropWhile_fixed_prefix _ _ (JsString.rev "" x)).
    rewrite <- rev_app, <- Hx, rev_involutive. apply dropWhile_idem.
  - rewrite rev_involutive. apply dropWhile_idem.
Qed.

Lemma noGt_app (a b : string) :
  Notions.noGt (a ++ b) = Notions.noGt a && Notions.noGt b.
Proof.
  unfold Notions.noGt. induction a as [|c a IH]; [reflexivity |].
  rewrite append_cons. cbn [JsString.all]. by rewrite IH, andb_assoc.
Qed.

Lemma noGt_tagFree (s : string) : Notions.noGt s = true -> Notions.tagFree s = true.
Proof.
  unfold Notions.noGt. induction s as [|c s IH]; [reflexivity |].
  cbn [JsString.all Notions.tagFree]. intros H. apply andb_true_iff in H as [_ Hs].
  rewrite (IH Hs). destruct (Ascii.eqb c "<"); [| reflexivity].
  unfold Notions.noGt. by rewrite Hs.
Qed.

Lemma noGt_rev (acc s : string) :
  Notions.noGt acc = true -> Notions.noGt s = true ->
  Notions.noGt (JsString.rev acc s) = true.
Proof.
  revert acc. induction s as [|c s IH]; intros acc Ha Hs; cbn [JsString.rev]; [done |].
  unfold Notions.noGt in *. cbn [JsString.all] in Hs.
  apply andb_true_iff in Hs as [Hc Hs]. apply IH; [| done].
  cbn [JsString.all]. by rewrite Hc, Ha.
Qed.

(** What [stripTags] returns holds no tag, inside a tag or outside. *)
Lemma stripTags_tagFree (s : string) :
  Notions.tagFree (PageParser.stripTags None s) = true /\
  forall seen, Notions.noGt seen = true ->
               Notions.tagFree (PageParser.stripTags (Some seen) s) = true.
Proof.
  induction s as [|c s [IHn IHs]]; cbn [PageParser.stripTags].
  - split; [reflexivity |]. intros seen Hs. apply noGt_tagFree.
    by apply noGt_rev.
  - split.
    + destruct (Ascii.eqb c "<") eqn:Hc.
      * apply IHs. apply Ascii.eqb_eq in Hc as ->. reflexivity.
      * cbn [Notions.tagFree]. by rewrite Hc, IHn.
    + intros seen Hs. destruct (Ascii.eqb c ">") eqn:Hc; [exact IHn |].
      apply IHs. unfold Notions.noGt in *. cbn [JsString.all]. by rewrite Hc, Hs.
Qed.

Lemma tagFree_app (a b : string) :
  Notions.tagFree (a ++ b) = true -> Notions.tagFree a = true /\ Notions.tagFree b = true.
Proof.
  induction a as [|c a IH]; [by rewrite append_nil |].
  rewrite append_cons. cbn [Notions.tagFree]. intros H.
  apply andb_true_iff in H as [Hc H]. destruct (IH H) as [Ha Hb].
  split; [| done]. rewrite Ha, andb_true_r.
  destruct (Ascii.eqb c "<"); [| reflexivity].
  rewrite noGt_app in Hc. by apply andb_true_iff in Hc as [].
Qed.

Lemma tagFree_HasTag (s : string) : Notions.tagFree s = true -> ~ Notions.HasTag s.
Proof.
  intros Hf (a & b & c & ->).
  apply tagFree_app in Hf as [_ Hf].
  change ("<" ++ b ++ ">" ++ c) with (String "<" (b ++ String ">" c)) in Hf.
  cbn [Notions.tagFree] in Hf. apply andb_true_iff in Hf as [Hg _].
  change (Ascii.eqb "<" "<") with true in Hg. cbv iota in Hg.
  rewrite noGt_app in Hg. apply andb_true_iff in Hg as [_ Hg].
  unfold Notions.noGt in Hg. cbn [JsString.all] in Hg. discriminate.
Qed.

Lemma HasTag_infix (a s b : string) : Notions.HasTag s -> Notions.HasTag (a ++ s ++ b).
Proof.
  intros (x & y & z & ->). exists (a ++ x), y, (z ++ b).
  by rewrite !append_assoc.
Qed.

(** X12: the text of a reading is a sequence of paragraph texts joined by
    blank lines, at most one per [p] element; each of them is non-empty, has
    no white space at either end and contains no markup tag. *)
Theorem extractTextContent_paragraphs (h : PageParser.Host) (element : Dom.Elem) :
  exists texts,
    PageParser.extractTextContent h element =
      String.concat (String "010" (String "010" "")) texts /\
    (length texts <= length (Dom.querySelectorAll [Dom.byTag "p"] element))%nat /\
    Forall (fun x => x <> "" /\ Notions.Trimmed x /\ ~ Notions.HasTag x) texts.
Proof.
  unfold PageParser.extractTextContent.
  set (f := fun p : Dom.Elem => JsString.trim _).
  exists (List.filter JsString.truthy (List.map f (Dom.querySelectorAll [Dom.byTag "p"] element))).
  split; [reflexivity |]. split.
  - etransitivity; [apply filter_length_le |]. by rewrite length_map.
  - apply Forall_forall. intros x Hx. apply list_elem_of_In, filter_In in Hx as [Hx Ht].
    apply in_map_iff in Hx as (p & <- & _). split; [| split].
    + intros He. by rewrite He in Ht.
    + apply trim_Trimmed.
    + unfold f. intros Htag.
      destruct (trim_infix (PageParser.stripTags None
                  (PageParser.replaceBr (S (String.length (PageParser.innerHTML h p)))
                     (PageParser.innerHTML h p)))) as (a & b & Hab).
      apply (HasTag_infix a _ b) in Htag. rewrite <- Hab in Htag.
      revert Htag. apply tagFree_HasTag, stripTags_tagFree.
Qed.

Lemma empty_Trimmed : Notions.Trimmed "".
Proof. split; reflexivity. Qed.

Lemma parseReadingBlock_trimmed (h : PageParser.Host) (b : Dom.Elem) (r : PageParser.Reading) :
  PageParser.parseReadingBlock h b = Some r ->
  Notions.Trimmed (PageParser.name r) /\ Notions.Trimmed (PageParser.reference r).
Proof.
  unfold PageParser.parseReadingBlock.
  destruct (Dom.querySelector PageParser.nameSelector b); [| discriminate].
  destruct (Dom.querySelector PageParser.bodySelector b); [| discriminate].
  intros [= <-]. cbn [PageParser.name PageParser.reference].
  split; [apply trim_Trimmed |].
  destruct (PageParser.referenceLink b); cbn; [apply trim_Trimmed | apply empty_Trimmed].
Qed.

Lemma collectReadings_trimmed (h : PageParser.Host) (blocks : list Dom.Elem) :
  Forall (fun x => Notions.Trimmed (PageParser.name x) /\
                   Notions.Trimmed (PageParser.reference x))
         (PageParser.collectReadings h blocks) /\
  (length (PageParser.collectReadings h blocks) <= length blocks)%nat.
Proof.
  induction blocks as [|b blocks [IHf IHl]]; [split; [constructor | reflexivity] |].
  change (PageParser.collectReadings h (b :: blocks))
    with (match PageParser.parseReadingBlock h b with
          | Some r => r :: PageParser.collectReadings h blocks
          | None => PageParser.collectReadings h blocks
          end).
  destruct (PageParser.parseReadingBlock h b) as [r|] eqn:Hb.
  - split; [constructor; [by eapply parseReadingBlock_trimmed | done] | cbn; lia].
  - split; [done | cbn; lia].
Qed.

(** X13: in the parsed record the title, and the name and the reference of
    every reading, have no white space at either end, and there are at most
    as many readings as the page has verse blocks. *)
Theorem parsed_fields_trimmed
  (h : PageParser.Host) (doc : Dom.Elem) (iso : string) (d : JsDate.t) :
  let r := PageParser.parseDocument h doc iso d in
  Notions.Trimmed (PageParser.title r) /\
  Forall (fun x => Notions.Trimmed (PageParser.name x) /\
                   Notions.Trimmed (PageParser.reference x))
         (PageParser.readings r) /\
  (length (PageParser.readings r) <= length (PageParser.verseBlocks doc))%nat.
Proof.
  cbn [PageParser.parseDocument PageParser.title PageParser.readings]. split.
  - unfold PageParser.extractTitle.
    destruct (Dom.querySelector _ doc); [apply trim_Trimmed | apply empty_Trimmed].
  - apply collectReadings_trimmed.
Qed.

(** ** More on the race *)

Section RaceMore.
Import Js FetchRacer RaceInvariants Notions.

Ltac step_inversion He :=
  cbn [step] in He;
  repeat match type of He with
         | context [match ?x with _ => _ end] => destruct x eqn:?; try discriminate
         end;
  injection He as <-.

(** A pending promise means the deadline is still armed. *)
Lemma step_pending (s : Race) (e : Event) (s' : Race) :
  Inv s -> (promise s = None -> globalTimer s = Armed) ->
  step s e = Some s' -> promise s' = None -> globalTimer s' = Armed.
Proof.
  intros HI HP He.
  destruct e as [| i | i ok | i | i text | i]; step_inversion He;
    unfold onDeadline, onFailure, onBody, setRoute;
    repeat match goal with
           | |- context [if ?x then _ else _] => destruct x eqn:?
           end; cbn; try exact HP;
    try (destruct (promise s); cbn; intros; congruence).
  destruct (inv_armed s HI ltac:(done)). congruence.
Qed.

Lemma run_pending (es : list Event) : forall s s',
  Inv s -> (promise s = None -> globalTimer s = Armed) ->
  run s es = Some s' -> promise s' = None -> globalTimer s' = Armed.
Proof.
  induction es as [|e es IH]; intros s s' HI HP; cbn [run].
  - by intros [= <-].
  - destruct (step s e) as [s1|] eqn:He; [| discriminate].
    apply IH; [by eapply step_inv | by eapply step_pending].
Qed.

(** X14: in every state the race can reach, the promise is pending exactly
    while the global timer is armed: the race is decided at the latest when
    the deadline fires. *)
Theorem promise_pending_iff_deadline_armed
  (urls : list string) (es : list Event) (s : Race) :
  run (start urls) es = Some s ->
  promise s = None <-> globalTimer s = Armed.
Proof.
  intros Hrun. split.
  - eapply run_pending; [apply start_inv | done | exact Hrun].
  - intros Ht. by destruct (inv_armed s (run_inv _ _ _ (start_inv urls) Hrun) Ht).
Qed.

(** Once a route has won, its controller is left alone. *)
Lemma step_winner (s : Race) (e : Event) (s' : Race) (k : nat) :
  settled s = true -> globalTimer s <> Armed -> aborted s !! k = Some false ->
  step s e = Some s' ->
  settled s' = true /\ globalTimer s' <> Armed /\ aborted s' !! k = Some false.
Proof.
  intros Hs Ht Ha He.
  destruct e as [| i | i ok | i | i text | i]; step_inversion He;
    unfold onFailure, onBody, setRoute; rewrite ?Hs; cbn [negb andb];
    rewrite ?andb_false_r; cbn; try done.
Qed.

Lemma run_winner (es : list Event) : forall s s' k,
  settled s = true -> globalTimer s <> Armed -> aborted s !! k = Some false ->
  run s es = Some s' -> aborted s' !! k = Some false.
Proof.
  induction es as [|e es IH]; intros s s' k Hs Ht Ha; cbn [run].
  - by intros [= <-].
  - destruct (step s e) as [s1|] eqn:He; [| discriminate].
    destruct (step_winner s e s1 k Hs Ht Ha He) as (? & ? & ?). by apply IH.
Qed.

(** X15: after a route has delivered its body, the controller of that route
    is never aborted and the controllers of all other routes are aborted,
    whatever runs afterwards. *)
Theorem success_aborts_only_the_losers
  (urls : list string) (pre post : list Event) (k : nat) (text : string) (s : Race) :
  run (start urls) (pre ++ Body k text :: post)%list = Some s ->
  aborted s !! k = Some false /\
  forall j, (j < length urls)%nat -> j <> k -> aborted s !! j = Some true.
Proof.
  intros H. apply run_app in H as (s1 & H1 & H2). cbn [run] in H2.
  destruct (step s1 (Body k text)) as [s2|] eqn:He; [| discriminate].
  pose proof (run_inv _ _ _ (start_inv urls) H1) as HI.
  pose proof (run_proxyUrls _ _ _ H1) as Hu. cbn in Hu.
  cbn [step] in He. destruct (routes s1 !! k) as [[]|] eqn:Hk; try discriminate.
  destruct (isAborted k s1) eqn:Hab; try discriminate. injection He as <-.
  destruct (undecided s1 k Reading HI Hk ltac:(auto) Hab) as [Hs Hp].
  apply isAborted_false in Hab.
  unfold onBody in H2. rewrite Hs in H2. split.
  - eapply run_winner; [| | | exact H2]; cbn.
    + reflexivity.
    + destruct (globalTimer s1); discriminate.
    + rewrite list_lookup_imap, Hab. cbn. by rewrite Nat.eqb_refl.
  - intros j Hj Hne. eapply run_aborted; [exact H2 |]. cbn.
    rewrite list_lookup_imap.
    destruct (aborted s1 !! j) eqn:Ha.
    + cbn. destruct (Nat.eqb_spec j k); [done | reflexivity].
    + apply lookup_ge_None in Ha. rewrite (inv_aborted s1 HI), Hu in Ha. lia.
Qed.

Lemma onFailure_explained (done : list Event) (s : Race) (i : nat) (p : Phase) (e : Event) :
  Inv s -> Explained done s -> routes s !! i = Some p -> p <> Finished ->
  Explained (done ++ [e]) (onFailure i s).
Proof.
  intros HI HE Hi Hp o. unfold onFailure.
  assert (Hlive : failures s = length (proxyUrls s) -> False).
  { intros Hf. pose proof (inv_count s HI) as Hc.
    assert (Hz : live (routes s) = O) by lia.
    by apply Hp, (live_zero _ _ _ Hz Hi). }
  destruct ((S (failures s) =? length (proxyUrls s))%nat && negb (settled s)) eqn:Hc; cbn.
  - apply andb_true_iff in Hc as [Hn _]. apply Nat.eqb_eq in Hn.
    destruct (promise s) as [o0|] eqn:Hpr; cbn.
    + intros [= <-]. destruct (HE o0 Hpr) as [(k & text & -> & Hin) | [[-> Hin] | [_ Hf]]].
      * left. exists k, text. split; [done |]. apply in_app_iff; by left.
      * right; left. split; [done |]. apply in_app_iff; by left.
      * by destruct (Hlive Hf).
    + intros [= <-]. right; right. by split.
  - intros Hpr. destruct (HE o Hpr) as [(k & text & -> & Hin) | [[-> Hin] | [_ Hf]]].
    + left. exists k, text. split; [done |]. apply in_app_iff; by left.
    + right; left. split; [done |]. apply in_app_iff; by left.
    + by destruct (Hlive Hf).
Qed.

Lemma explained_more (done : list Event) (e : Event) (s s' : Race) :
  Explained done s -> promise s' = promise s -> failures s' = failures s ->
  proxyUrls s' = proxyUrls s -> Explained (done ++ [e]) s'.
Proof.
  intros HE Hp Hf Hu o Ho. rewrite Hp in Ho. rewrite Hf, Hu.
  destruct (HE o Ho) as [(k & text & -> & Hin) | [[-> Hin] | [-> Hn]]].
  - left. exists k, text. split; [done |]. apply in_app_iff; by left.
  - right; left. split; [done |]. apply in_app_iff; by left.
  - right; right. by split.
Qed.

Lemma step_explained (done : list Event) (s : Race) (e : Event) (s' : Race) :
  Inv s -> Explained done s -> step s e = Some s' -> Explained (done ++ [e]) s'.
Proof.
  intros HI HE He.
  destruct e as [| i | i ok | i | i text | i]; step_inversion He.
  - destruct (inv_armed s HI ltac:(done)) as [Hs Hp].
    unfold onDeadline. rewrite Hs. intros o. cbn. rewrite Hp. cbn. intros [= <-].
    right; left. split; [done |]. apply in_app_iff; right; by left.
  - by apply (explained_more done _ s).
  - by apply (explained_more done _ s).
  - by apply (explained_more done _ s).
  - eapply onFailure_explained; eauto; discriminate.
  - eapply onFailure_explained; eauto; discriminate.
  - match goal with H : isAborted _ _ = false |- _ => rename H into Hab end.
    match goal with H : routes s !! i = Some Reading |- _ => rename H into Hi end.
    destruct (undecided s i Reading HI Hi ltac:(auto) Hab) as [Hs Hp].
    unfold onBody. rewrite Hs. intros o. cbn. rewrite Hp. cbn. intros [= <-].
    left. exists i, text. split; [done |]. apply in_app_iff; right; by left.
  - eapply onFailure_explained; eauto; discriminate.
Qed.

Lemma run_explained (es : list Event) : forall done s s',
  Inv s -> Explained done s -> run s es = Some s' -> Explained (done ++ es) s'.
Proof.
  induction es as [|e es IH]; intros done s s' HI HE; cbn [run].
  - intros [= <-]. by rewrite app_nil_r.
  - destruct (step s e) as [s1|] eqn:He; [| discriminate]. intros Hr.
    replace (done ++ e :: es)%list with ((done ++ [e]) ++ es)%list
      by (rewrite <- app_assoc; reflexivity).
    eapply IH; [by eapply step_inv | by eapply step_explained | exact Hr].
Qed.

(** X16: a settled promise is resolved with a body that some route
    delivered, or rejected with the timeout error after the deadline fired,
    or rejected with the all-failed error when the failure count equals the
    number of routes; there is no other outcome. *)
Theorem race_outcome_explained
  (urls : list string) (es : list Event) (s : Race) (o : Outcome) :
  run (start urls) es = Some s -> promise s = Some o ->
  (exists k text, o = Resolved text /\ In (Body k text) es) \/
  (o = Rejected TimeoutError /\ In Deadline es) \/
  (o = Rejected AllRoutesFailedError /\ failures s = length urls).
Proof.
  intros Hrun Ho.
  assert (HE : Explained [] (start urls)) by (intros o0; discriminate).
  pose proof (run_explained es [] _ _ (start_inv urls) HE Hrun o Ho) as H.
  pose proof (run_proxyUrls _ _ _ Hrun) as Hu. cbn in Hu.
  rewrite Hu in H. exact H.
Qed.

End RaceMore.

(** ** More on getReadings *)

Section ServiceMore.
Import Js Service Notions.
Variable env : Env.

(** A successful lookup leaves the returned value under the key. *)
Lemma lookupOrFetch_success (st : State) (dateStr : string) (d : JsDate.t)
  (v : JsValue) (st' : State) :
  lookupOrFetch env st dateStr d = (inr v, st') ->
  cache st' !! dateStr = Some v /\
  (cache st' = cache st \/ (cache st' = <[dateStr := v]> (cache st) /\ truthy v = true)).
Proof.
  unfold lookupOrFetch.
  destruct (cache st !! dateStr) as [v0|] eqn:Hc; [intros [= <- <-]; auto |].
  destruct (readFromPersistentCache env (storage st) dateStr) as [persisted items].
  destruct (truthy persisted) eqn:Ht.
  { intros [= <- <-]. cbn. rewrite lookup_insert_eq. auto. }
  unfold fetchAndStore.
  destruct (match fetchUrl env _ with inr html => _ | inl e0 => _ end) as [err | r].
  - destruct (hasWindow env); [| discriminate]. unfold viaProxies.
    destruct (fetchViaProxies env _ timeout) as [html | proxyError]; [| discriminate].
    destruct (parseReadings env html d); [discriminate |].
    intros [= <- <-]. cbn. rewrite lookup_insert_eq. auto.
  - intros [= <- <-]. cbn. rewrite lookup_insert_eq. auto.
Qed.

(** X17: when every cached value is truthy, a successful [getReadings]
    returns a truthy value and leaves every cached value truthy: [null]
    never enters the in-memory cache. *)
Theorem cache_holds_truthy_values (st : State) (date : Arg) (v : JsValue) (st' : State) :
  CacheTruthy (cache st) ->
  getReadings env st date = (inr v, st') ->
  truthy v = true /\ CacheTruthy (cache st').
Proof.
  intros HT.
  assert (Hl : forall dateStr d, lookupOrFetch env st dateStr d = (inr v, st') ->
                                 truthy v = true /\ CacheTruthy (cache st')).
  { intros dateStr d H. destruct (lookupOrFetch_success _ _ _ _ _ H) as [Hk [Hc | [Hc Hv]]].
    - rewrite Hc in *. split; [by apply (HT dateStr) | done].
    - split; [done |]. rewrite Hc. intros k w.
      destruct (decide (dateStr = k)) as [-> | Hne].
      + rewrite lookup_insert_eq. by intros [= <-].
      + rewrite lookup_insert_ne by done. apply HT. }
  unfold getReadings. destruct date as [dateStr | d |]; [| apply Hl | discriminate].
  destruct (DateCodec.parseDateString dateStr); [discriminate | apply Hl].
Qed.

End ServiceMore.

(** X18: after a successful call, a second call with the same argument
    returns the same value from the in-memory cache and changes nothing,
    whatever the network and the storage do by then. *)
Theorem repeated_call_served_from_memory
  (env env' : Service.Env) (st : Service.State) (date : Service.Arg)
  (v : Js.JsValue) (st' : Service.State) :
  Service.getReadings env st date = (inr v, st') ->
  Service.getReadings env' st' date = (inr v, st').
Proof.
  unfold Service.getReadings. destruct date as [dateStr | d |]; [| | discriminate].
  - destruct (DateCodec.parseDateString dateStr) as [err | d]; [discriminate |].
    intros H. apply lookupOrFetch_success in H as [Hk _].
    unfold Service.lookupOrFetch. by rewrite Hk.
  - intros H. apply lookupOrFetch_success in H as [Hk _].
    unfold Service.lookupOrFetch. by rewrite Hk.
Qed.

Lemma repeated_call_served_from_memory_witness :
  Service.getReadings Demo.browser Demo.emptyState (Service.ArgString "121525") =
    (inr (Service.toJs
            (PageParser.parseDocument Demo.host (Dom.document Demo.page)
               "2025-12-15" (JsDate.make (Some 2025) (Some 11) (Some 15)))),
     Examples.afterFetch) /\
  Service.getReadings Demo.node Examples.afterFetch (Service.ArgString "121525") =
    (inr (Service.toJs
            (PageParser.parseDocument Demo.host (Dom.document Demo.page)
               "2025-12-15" (JsDate.make (Some 2025) (Some 11) (Some 15)))),
     Examples.afterFetch).
Proof.
  split; [vm_compute; reflexivity |].
  apply (repeated_call_served_from_memory Demo.browser Demo.node Demo.emptyState).
  vm_compute; reflexivity.
Defined.

Section Tiers.
Import Js Service Notions.
Variable env : Env.

Lemma state_eta (st : State) : {| cache := cache st; storage := storage st |} = st.
Proof. by destruct st. Qed.

(** X19: when the in-memory cache misses and the durable tier holds a
    readable entry for the key whose value is truthy, [getReadings] returns
    that value without fetching and stores it in the in-memory cache. *)
Theorem durable_hit_is_promoted
  (st : State) (key raw : string) (d : JsDate.t) (v : JsValue) :
  DateCodec.parseDateString key = inr d ->
  cache st !! key = None ->
  fst (storageAvailable env (storage st)) = true ->
  getItemOk env (storageKey key) = true ->
  storage st !! storageKey key = Some raw ->
  raw <> "" ->
  JSON_parse env raw = Some v ->
  truthy v = true ->
  getReadings env st (ArgString key) =
    (inr v, {| cache := <[key := v]> (cache st);
               storage := snd (storageAvailable env (storage st)) |}).
Proof.
  intros Hp Hc Hok Hget Hraw Hne Hjson Hv.
  unfold getReadings. rewrite Hp.
  unfold lookupOrFetch, readFromPersistentCache. rewrite Hc.
  pose proof (storageAvailable_lookup env (storage st) key) as Hl.
  destruct (storageAvailable env (storage st)) as [ok items1]. cbn [fst snd] in *.
  subst ok. cbn [negb]. rewrite Hget. cbn [negb]. rewrite Hl, Hraw.
  destruct raw; [done |]. cbn [JsString.truthy]. rewrite Hjson. cbn [default].
  unfold id. by rewrite Hv.
Qed.

(** Writing leaves the keys of other applications alone. *)
Lemma storageAvailable_other (items : gmap string string) (k : string) :
  k <> probeKey -> snd (storageAvailable env items) !! k = items !! k.
Proof.
  intros Hk. unfold storageAvailable.
  destruct (hasWindow env); cbn [negb]; [| reflexivity].
  destruct (localStorage env); try reflexivity.
  destruct (setItemOk env items probeKey "1"); [| reflexivity].
  cbn [snd]. by rewrite lookup_delete_ne, lookup_insert_ne.
Qed.

Lemma readFromPersistentCache_other (items : gmap string string) (key k : string) :
  k <> probeKey -> snd (readFromPersistentCache env items key) !! k = items !! k.
Proof.
  intros Hk. unfold readFromPersistentCache.
  pose proof (storageAvailable_other items k Hk) as Hl.
  destruct (storageAvailable env items) as [ok items1]. cbn [snd] in Hl.
  destruct ok; cbn [negb]; [| exact Hl].
  destruct (getItemOk env (storageKey key)); cbn [negb]; [| exact Hl].
  destruct (items1 !! storageKey key) as [raw|]; [| exact Hl].
  destruct (JsString.truthy raw); exact Hl.
Qed.

Lemma writeToPersistentCache_other (items : gmap string string) (key k : string) (v : JsValue) :
  k <> probeKey -> k <> storageKey key ->
  writeToPersistentCache env items key v !! k = items !! k.
Proof.
  intros Hk Hs. unfold writeToPersistentCache.
  pose proof (storageAvailable_other items k Hk) as Hl.
  destruct (storageAvailable env items) as [ok items1]. cbn [snd] in Hl.
  destruct ok; cbn [negb]; [| exact Hl].
  destruct (JSON_stringify env v) as [json|]; [| exact Hl].
  destruct (setItemOk env items1 (storageKey key) json); [| exact Hl].
  by rewrite lookup_insert_ne.
Qed.

Lemma lookupOrFetch_other (st : State) (dateStr k : string) (d : JsDate.t) :
  k <> probeKey -> k <> storageKey dateStr ->
  storage (snd (lookupOrFetch env st dateStr d)) !! k = storage st !! k.
Proof.
  intros Hk Hs. unfold lookupOrFetch.
  destruct (cache st !! dateStr); [reflexivity |].
  pose proof (readFromPersistentCache_other (storage st) dateStr k Hk) as Hr.
  destruct (readFromPersistentCache env (storage st) dateStr) as [persisted items].
  cbn [snd] in Hr.
  destruct (truthy persisted); [exact Hr |].
  unfold fetchAndStore.
  destruct (match fetchUrl env _ with inr html => _ | inl e0 => _ end) as [err | r];
    [| exact Hr].
  destruct (hasWindow env); [| exact Hr]. unfold viaProxies.
  destruct (fetchViaProxies env _ timeout) as [html | proxyError]; [| exact Hr].
  destruct (parseReadings env html d); [exact Hr |].
  cbn [snd storage]. by rewrite writeToPersistentCache_other.
Qed.

(** X20: a call changes no [localStorage] key other than the probe key and
    the keys of its own "CathReadings:" namespace. *)
Theorem storage_touched_only_in_namespace (st : State) (date : Arg) (k : string) :
  k <> probeKey ->
  (forall dateStr, k <> storageKey dateStr) ->
  storage (snd (getReadings env st date)) !! k = storage st !! k.
Proof.
  intros Hk Hs. unfold getReadings. destruct date as [dateStr | d |]; [| | reflexivity].
  - destruct (DateCodec.parseDateString dateStr); [reflexivity |].
    by apply lookupOrFetch_other.
  - by apply lookupOrFetch_other.
Qed.

(** X21: what [writeToPersistentCache] stores, [readFromPersistentCache]
    reads back, in a host whose storage accepts the writes and whose
    [JSON.parse] inverts [JSON.stringify] on the value. *)
Theorem durable_write_then_read
  (items : gmap string string) (key json : string) (v : JsValue) :
  hasWindow env = true ->
  localStorage env = Present ->
  (forall its, setItemOk env its probeKey "1" = true) ->
  JSON_stringify env v = Some json ->
  setItemOk env (snd (storageAvailable env items)) (storageKey key) json = true ->
  getItemOk env (storageKey key) = true ->
  json <> "" ->
  JSON_parse env json = Some v ->
  fst (readFromPersistentCache env (writeToPersistentCache env items key v) key) = v.
Proof.
  intros Hw Hl Hprobe Hjs Hset Hget Hne Hjp.
  assert (Hav : forall its, storageAvailable env its
                            = (true, delete probeKey (<[probeKey := "1"]> its))).
  { intros its. unfold storageAvailable. by rewrite Hw, Hl, Hprobe. }
  unfold writeToPersistentCache. rewrite Hav in *. cbn [snd] in Hset. cbn [negb].
  rewrite Hjs, Hset.
  unfold readFromPersistentCache. rewrite Hav. cbn [negb]. rewrite Hget. cbn [negb].
  pose proof (storageKey_not_probe key) as Hk.
  rewrite lookup_delete_ne, lookup_insert_ne, lookup_insert_eq by done.
  destruct json; [done |]. cbn [JsString.truthy]. by rewrite Hjp.
Qed.

(** X22: without a [window], a failure of the direct fetch is rethrown as it
    is, the proxies are not tried and the state is left as it was. *)
Theorem node_failure_propagates
  (st : State) (key : string) (d : JsDate.t) (e : JsError) :
  hasWindow env = false ->
  DateCodec.parseDateString key = inr d ->
  cache st !! key = None ->
  fetchUrl env (baseUrl ++ "/" ++ key ++ ".cfm") = inl e ->
  getReadings env st (ArgString key) = (inl e, st).
Proof.
  intros Hw Hp Hc Hf. unfold getReadings. rewrite Hp.
  unfold lookupOrFetch, readFromPersistentCache, storageAvailable. rewrite Hc, Hw.
  cbn [negb truthy]. unfold fetchAndStore. rewrite Hf, Hw. by rewrite state_eta.
Qed.

End Tiers.

(** The race rejects with plain [Error] objects. *)
Lemma race_rejection_name (urls : list string) (es : list FetchRacer.Event)
  (s : FetchRacer.Race) (err : Js.JsError) :
  FetchRacer.run (FetchRacer.start urls) es = Some s ->
  FetchRacer.promise s = Some (FetchRacer.Rejected err) ->
  Js.errName err = "Error".
Proof.
  intros Hrun Ho.
  assert (HE : Notions.Explained [] (FetchRacer.start urls)) by (intros o0; discriminate).
  destruct (run_explained es [] _ _ (start_inv urls) HE Hrun _ Ho)
    as [(k & text & H & _) | [[H _] | [H _]]]; [discriminate | |];
    injection H as ->; reflexivity.
Qed.

Section Messages.
Import Js Service Notions.
Variable env : Env.

Lemma consolidated_generic (err : JsError) :
  errName err <> "AbortError" ->
  consolidated err = Error "Unable to fetch readings (CORS or network error)".
Proof.
  intros H. unfold consolidated.
  destruct (String.eqb_spec (errName err) "AbortError"); [done | reflexivity].
Qed.

Lemma parseReadings_error_name (html : string) (d : JsDate.t) (err : JsError) :
  parseReadings env html d = inl err -> errName err <> "AbortError".
Proof.
  unfold parseReadings. destruct (PageParser.DOMParser (host env)).
  - destruct (PageParser.toISOString (host env) d); [discriminate |].
    intros [= <-]. discriminate.
  - intros [= <-]. discriminate.
Qed.

(** X23: in a browser whose proxy race behaves as [fetchViaProxies] does, a
    failing [getReadings] reports a malformed date, a wrong argument type or
    "Unable to fetch readings (CORS or network error)"; the timed-out message
    is never produced, because the race rejects with plain [Error] objects,
    a timeout included. *)
Theorem browser_errors_never_say_timed_out
  (st : State) (date : Arg) (e : JsError) (st' : State) :
  hasWindow env = true ->
  RaceProduced env ->
  getReadings env st date = (inl e, st') ->
  (e = Error "Date must be in MMDDYY format" \/
   e = Error "Date must be a Date object or MMDDYY string" \/
   e = Error "Unable to fetch readings (CORS or network error)") /\
  errMessage e <> timedOutMessage.
Proof.
  intros Hw HR Hg.
  assert (Hc : e = Error "Date must be in MMDDYY format" \/
               e = Error "Date must be a Date object or MMDDYY string" \/
               e = Error "Unable to fetch readings (CORS or network error)").
  { assert (Hl : forall dateStr d, lookupOrFetch env st dateStr d = (inl e, st') ->
                   e = Error "Unable to fetch readings (CORS or network error)").
    { intros dateStr d. unfold lookupOrFetch.
      destruct (cache st !! dateStr); [discriminate |].
      destruct (readFromPersistentCache env (storage st) dateStr) as [persisted items].
      destruct (truthy persisted); [discriminate |].
      unfold fetchAndStore.
      destruct (match fetchUrl env _ with inr html => _ | inl e0 => _ end) as [err | r];
        [| discriminate].
      rewrite Hw. unfold viaProxies.
      destruct (fetchViaProxies env _ timeout) as [html | proxyError] eqn:Hx.
      - destruct (parseReadings env html d) as [perr | r] eqn:Hp; [| discriminate].
        intros [= <- _]. apply consolidated_generic.
        by eapply parseReadings_error_name.
      - intros [= <- _]. apply consolidated_generic.
        destruct (HR _ _ _ Hx) as (urls & es & s & Hrun & Ho).
        rewrite (race_rejection_name urls es s proxyError Hrun Ho). discriminate. }
    revert Hg. unfold getReadings. destruct date as [dateStr | d |].
    - destruct (DateCodec.parseDateString dateStr) as [err | d] eqn:Hp.
      + intros [= <- _]. left.
        destruct (DateCodec.sixDigits dateStr) eqn:H6.
        * destruct (parseDateString_accepts_all_digits dateStr H6) as [t Ht]. congruence.
        * rewrite (parseDateString_format dateStr H6) in Hp. by injection Hp as <-.
      + intros H. right; right. by eapply Hl.
    - intros H. right; right. by eapply Hl.
    - intros [= <- _]. right; left. reflexivity. }
  split; [exact Hc |].
  destruct Hc as [-> | [-> | ->]]; discriminate.
Qed.

(** X24: for a date of the years 2000..2099, calling [getReadings] with the
    key of the date is calling it with local midnight of that day. *)
Theorem date_argument_agrees_with_key (st : State) (t : Z) :
  2000 <= JsDate.YearFromTime t <= 2099 ->
  getReadings env st (ArgString (DateCodec.formatDateForUrl (Some t))) =
  getReadings env st (ArgDate (Some (JsDate.Day t * JsDate.msPerDay))).
Proof.
  intros Hy. unfold getReadings.
  rewrite parse_format_any_time by done.
  assert (Hm : JsDate.MakeDate (JsDate.Day t) (JsDate.MakeTime 0 0 0 0)
               = JsDate.Day t * JsDate.msPerDay)
    by (unfold JsDate.MakeDate, JsDate.MakeTime; lia).
  rewrite Hm. f_equal.
  apply format_day_only. unfold JsDate.Day, JsDate.msPerDay.
  Z.div_mod_to_equations. lia.
Qed.

(** X25: when [getReadings] returns the object built by [parseReadings],
    [getSeason] and [getRank] return its season and its rank and leave the
    same state. *)
Theorem season_and_rank_of_parsed_result
  (st : State) (date : Arg) (r : PageParser.DailyReadings) (st' : State) :
  getReadings env st date = (inr (toJs r), st') ->
  Helpers.getSeason env st date = (inr (Some (VStr (PageParser.season r))), st') /\
  Helpers.getRank env st date = (inr (Some (VStr (PageParser.rank r))), st').
Proof.
  intros H. unfold Helpers.getSeason, Helpers.getRank, Helpers.project.
  rewrite H. split; reflexivity.
Qed.

End Messages.


(** ** Instances *)

Lemma keys_distinguish_days_witness :
  2000 <= JsDate.YearFromTime 1765803600000 <= 2099 /\
  2000 <= JsDate.YearFromTime 1765756800000 <= 2099 /\
  (DateCodec.formatDateForUrl (Some 1765803600000) =
     DateCodec.formatDateForUrl (Some 1765756800000) <->
   JsDate.Day 1765803600000 = JsDate.Day 1765756800000).
Proof.
  split; [vm_compute; split; discriminate |].
  split; [vm_compute; split; discriminate |].
  apply (keys_distinguish_days 1765803600000 1765756800000);
    vm_compute; split; discriminate.
Defined.

Lemma promise_pending_iff_deadline_armed_witness :
  FetchRacer.run (FetchRacer.start Demo.urls)
    (Demo.beforeSuccess ++ FetchRacer.Body 1 "<html></html>" :: Demo.afterSuccess)%list
    = Some Demo.raceWon /\
  (FetchRacer.promise Demo.raceWon = None <->
   FetchRacer.globalTimer Demo.raceWon = FetchRacer.Armed).
Proof.
  split; [reflexivity |].
  apply (promise_pending_iff_deadline_armed Demo.urls
           (Demo.beforeSuccess ++ FetchRacer.Body 1 "<html></html>" :: Demo.afterSuccess)%list
           Demo.raceWon).
  reflexivity.
Defined.

Lemma success_aborts_only_the_losers_witness :
  FetchRacer.run (FetchRacer.start Demo.urls)
    (Demo.beforeSuccess ++ FetchRacer.Body 1 "<html></html>" :: Demo.afterSuccess)%list
    = Some Demo.raceWon /\
  FetchRacer.aborted Demo.raceWon !! 1%nat = Some false /\
  FetchRacer.aborted Demo.raceWon !! 3%nat = Some true.
Proof.
  split; [reflexivity |].
  destruct (success_aborts_only_the_losers Demo.urls Demo.beforeSuccess Demo.afterSuccess
              1 "<html></html>" Demo.raceWon eq_refl) as [Hk Hj].
  split; [exact Hk | apply Hj; [cbn; lia | discriminate]].
Defined.

Lemma race_outcome_explained_witness :
  FetchRacer.run (FetchRacer.start Demo.urls)
    (Demo.beforeDeadline ++ FetchRacer.Deadline :: Demo.afterDeadline)%list
    = Some Examples.raceTimedOut /\
  FetchRacer.promise Examples.raceTimedOut
    = Some (FetchRacer.Rejected FetchRacer.TimeoutError) /\
  ((exists k text,
      FetchRacer.Rejected FetchRacer.TimeoutError = FetchRacer.Resolved text /\
      In (FetchRacer.Body k text)
         (Demo.beforeDeadline ++ FetchRacer.Deadline :: Demo.afterDeadline)%list) \/
   (FetchRacer.Rejected FetchRacer.TimeoutError
      = FetchRacer.Rejected FetchRacer.TimeoutError /\
    In FetchRacer.Deadline
       (Demo.beforeDeadline ++ FetchRacer.Deadline :: Demo.afterDeadline)%list) \/
   (FetchRacer.Rejected FetchRacer.TimeoutError
      = FetchRacer.Rejected FetchRacer.AllRoutesFailedError /\
    FetchRacer.failures Examples.raceTimedOut = length Demo.urls)).
Proof.
  split; [reflexivity |]. split; [reflexivity |].
  apply (race_outcome_explained Demo.urls
           (Demo.beforeDeadline ++ FetchRacer.Deadline :: Demo.afterDeadline)%list
           Examples.raceTimedOut (FetchRacer.Rejected FetchRacer.TimeoutError));
    reflexivity.
Defined.

Lemma cache_holds_truthy_values_witness :
  Notions.CacheTruthy (Service.cache Demo.emptyState) /\
  exists v st',
    Service.getReadings Demo.browser Demo.emptyState (Service.ArgString "121525")
      = (inr v, st') /\
    Js.truthy v = true /\ Notions.CacheTruthy (Service.cache st').
Proof.
  assert (H0 : Notions.CacheTruthy (Service.cache Demo.emptyState)).
  { intros key v H. cbn in H. rewrite lookup_empty in H. discriminate. }
  split; [exact H0 |].
  destruct (Service.getReadings Demo.browser Demo.emptyState (Service.ArgString "121525"))
    as [[e | v] st'] eqn:Hg; [vm_compute in Hg; discriminate |].
  exists v, st'. split; [reflexivity |].
  apply (cache_holds_truthy_values Demo.browser Demo.emptyState
           (Service.ArgString "121525") v st' H0 Hg).
Defined.

Lemma durable_hit_is_promoted_witness :
  DateCodec.parseDateString "121525" = inr (JsDate.make (Some 2025) (Some 11) (Some 15)) /\
  Service.cache Examples.storedState !! "121525" = None /\
  Service.storage Examples.storedState !! Service.storageKey "121525" = Some "{}" /\
  Service.JSON_parse Examples.offlineBrowser "{}" = Some (Js.VObj []) /\
  fst (Service.getReadings Examples.offlineBrowser Examples.storedState
         (Service.ArgString "121525")) = inr (Js.VObj []).
Proof.
  split; [vm_compute; reflexivity |]. split; [reflexivity |].
  split; [vm_compute; reflexivity |]. split; [reflexivity |].
  rewrite (durable_hit_is_promoted Examples.offlineBrowser Examples.storedState
             "121525" "{}" (JsDate.make (Some 2025) (Some 11) (Some 15)) (Js.VObj []));
    [reflexivity | vm_compute; reflexivity | reflexivity | reflexivity | reflexivity
     | vm_compute; reflexivity | discriminate | reflexivity | reflexivity].
Defined.

Lemma storage_touched_only_in_namespace_witness :
  "theme" <> Service.probeKey /\
  (forall dateStr, "theme" <> Service.storageKey dateStr) /\
  Service.storage
    (snd (Service.getReadings Demo.blockedBrowser Examples.storedState
            (Service.ArgString "121625"))) !! "theme" = Some "dark".
Proof.
  assert (H1 : "theme" <> Service.probeKey) by discriminate.
  assert (H2 : forall dateStr, "theme" <> Service.storageKey dateStr)
    by (intros dateStr; unfold Service.storageKey; discriminate).
  split; [exact H1 |]. split; [exact H2 |].
  rewrite (storage_touched_only_in_namespace Demo.blockedBrowser Examples.storedState
             (Service.ArgString "121625") "theme" H1 H2).
  vm_compute. reflexivity.
Defined.

Lemma durable_write_then_read_witness :
  Service.JSON_stringify Examples.offlineBrowser (Js.VObj []) = Some "{}" /\
  Service.JSON_parse Examples.offlineBrowser "{}" = Some (Js.VObj []) /\
  fst (Service.readFromPersistentCache Examples.offlineBrowser
         (Service.writeToPersistentCache Examples.offlineBrowser ∅ "121525" (Js.VObj []))
         "121525") = Js.VObj [].
Proof.
  split; [reflexivity |]. split; [reflexivity |].
  apply (durable_write_then_read Examples.offlineBrowser ∅ "121525" "{}" (Js.VObj []));
    try reflexivity; discriminate.
Defined.

Lemma node_failure_propagates_witness :
  Service.hasWindow Demo.node = false /\
  Service.fetchUrl Demo.node (Service.baseUrl ++ "/" ++ "121525" ++ ".cfm")
    = inl (Js.Error "HTTP 404") /\
  Service.getReadings Demo.node Demo.emptyState (Service.ArgString "121525")
    = (inl (Js.Error "HTTP 404"), Demo.emptyState).
Proof.
  split; [reflexivity |]. split; [reflexivity |].
  apply (node_failure_propagates Demo.node Demo.emptyState "121525"
           (JsDate.make (Some 2025) (Some 11) (Some 15)) (Js.Error "HTTP 404"));
    [reflexivity | vm_compute; reflexivity | reflexivity | reflexivity].
Defined.

Lemma browser_errors_never_say_timed_out_witness :
  Service.hasWindow Examples.offlineBrowser = true /\
  Notions.RaceProduced Examples.offlineBrowser /\
  fst (Service.getReadings Examples.offlineBrowser Demo.emptyState
         (Service.ArgString "121525"))
    = inl (Js.Error "Unable to fetch readings (CORS or network error)").
Proof.
  assert (HR : Notions.RaceProduced Examples.offlineBrowser).
  { intros url ms err H. cbn in H. injection H as <-.
    exists Demo.urls,
      (Demo.beforeDeadline ++ FetchRacer.Deadline :: Demo.afterDeadline)%list,
      Examples.raceTimedOut.
    split; reflexivity. }
  split; [reflexivity |]. split; [exact HR |].
  destruct (Service.getReadings Examples.offlineBrowser Demo.emptyState
              (Service.ArgString "121525")) as [[e | v] st'] eqn:Hg;
    [| vm_compute in Hg; discriminate].
  destruct (browser_errors_never_say_timed_out Examples.offlineBrowser Demo.emptyState
              (Service.ArgString "121525") e st' eq_refl HR Hg) as [_ Hm].
  vm_compute in Hg. injection Hg as <- _. reflexivity.
Defined.

Lemma date_argument_agrees_with_key_witness :
  2000 <= JsDate.YearFromTime 1765803600000 <= 2099 /\
  Service.getReadings Demo.browser Demo.emptyState
    (Service.ArgString (DateCodec.formatDateForUrl (Some 1765803600000))) =
  Service.getReadings Demo.browser Demo.emptyState
    (Service.ArgDate (Some (JsDate.Day 1765803600000 * JsDate.msPerDay))).
Proof.
  split; [vm_compute; split; discriminate |].
  apply (date_argument_agrees_with_key Demo.browser Demo.emptyState 1765803600000).
  vm_compute; split; discriminate.
Defined.

Lemma season_and_rank_of_parsed_result_witness :
  Helpers.getSeason Demo.browser Demo.emptyState (Service.ArgString "121525")
    = (inr (Some (Js.VStr "Advent")), Examples.afterFetch) /\
  Helpers.getRank Demo.browser Demo.emptyState (Service.ArgString "121525")
    = (inr (Some (Js.VStr "Ferial")), Examples.afterFetch).
Proof.
  apply (season_and_rank_of_parsed_result Demo.browser Demo.emptyState
           (Service.ArgString "121525")
           (PageParser.parseDocument Demo.host (Dom.document Demo.page)
              "2025-12-15" (JsDate.make (Some 2025) (Some 11) (Some 15)))
           Examples.afterFetch).
  vm_compute. reflexivity.
Defined.
